(** * Authenticator: a shallow embedding of [src/authentication/authenticator.ts]

    The embedding follows the TypeScript class member by member.  JavaScript
    values are an inductive type, the token store and the endpoint registry
    are finite maps, every observable effect (console output, windows,
    dialogs, XHR calls, navigation) is appended to a log kept in the state,
    and a promise that is still pending is a state of a small machine that
    the host's callbacks (interval ticks, dialog messages, XHR events)
    drive forward. *)

From Stdlib Require Import ZArith String Ascii List Bool Lia.
From stdpp Require Import base option gmap strings.
Import ListNotations.

#[local] Set Warnings "-register-all".
Local Open Scope string_scope.
Local Open Scope Z_scope.

(** ** JavaScript values *)

(** Native error classes met in this file. *)
Inductive ErrorClass := TypeError | SyntaxError | OtherError.

(** A time value of a [Date]: milliseconds since the epoch, [None] is NaN
    (an invalid date). *)
Definition timeval := option Z.

Module Endpoint.
(** Modelled from the spec: [IEndpoint] is declared in
    [endpoint.manager], which is not part of the sources at hand; the
    fields are those of the spec's data model.  The authenticator reads
    [provider], [redirectUrl] and [tokenUrl] only. *)
Record t := mk {
  provider : string;
  clientId : string;
  baseUrl : string;
  authorizeUrl : string;
  redirectUrl : string;
  tokenUrl : option string;
  scope : option string;
  responseType : string
}.
End Endpoint.

(** Function values.  The only function the authenticator ever hands out as
    a value is the arrow function of the redirect branch of [authenticate];
    it closes over the endpoint and the provider id. *)
Inductive Closure :=
| RedirectArrow (endpoint : Endpoint.t) (provider : string).

Inductive value :=
| VUndefined
| VNull
| VBool (b : bool)
| VNum (n : Z)
| VStr (s : string)
| VDate (t : timeval)
| VArr (xs : list value)
| VObj (fields : list (string * value))
| VError (c : ErrorClass) (msg : string)
| VFun (f : Closure).

(** [v == null] and [v != null] (loose comparison with null). *)
Definition is_nullish (v : value) : bool :=
  match v with
  | VUndefined | VNull => true
  | _ => false
  end.

(** Own properties of an object literal, in insertion order. *)
Fixpoint assoc (k : string) (fields : list (string * value)) : option value :=
  match fields with
  | [] => None
  | (k', v) :: rest => if String.eqb k k' then Some v else assoc k rest
  end.

(** [o.k] on a non-null value: the own property, else [undefined]. *)
Definition get_prop (o : value) (k : string) : value :=
  match o with
  | VObj fields => default VUndefined (assoc k fields)
  | _ => VUndefined
  end.

(** [o.k = v] on an object: an existing property keeps its place. *)
Fixpoint assign (k : string) (v : value) (fields : list (string * value))
  : list (string * value) :=
  match fields with
  | [] => [(k, v)]
  | (k', v') :: rest =>
      if String.eqb k k' then (k, v) :: rest else (k', v') :: assign k v rest
  end.

Definition set_prop (o : value) (k : string) (v : value) : value :=
  match o with
  | VObj fields => VObj (assign k v fields)
  | _ => o
  end.

(** Completion of an expression that may throw. *)
Inductive completion (A : Type) :=
| Normal (a : A)
| Throw (e : value).
Arguments Normal {A} a.
Arguments Throw {A} e.

(** [k in v]: a [TypeError] on primitives; on objects the own keys (none of
    the keys tested in this file is inherited or an array index). *)
Definition js_in (k : string) (v : value) : completion bool :=
  match v with
  | VObj fields => Normal (bool_decide (is_Some (assoc k fields)))
  | VArr _ | VDate _ | VError _ _ | VFun _ => Normal false
  | VUndefined | VNull | VBool _ | VNum _ | VStr _ =>
      Throw (VError TypeError "Cannot use 'in' operator to search for a key in a primitive")
  end.

(** The values on which [in] throws. *)
Definition is_primitive (v : value) : bool :=
  match v with
  | VUndefined | VNull | VBool _ | VNum _ | VStr _ => true
  | _ => false
  end.

(** The object literal [<IError>{ error: e }]. *)
Definition IError (e : value) : value := VObj [("error", e)].

(** ** Strings *)

Definition is_lower (c : ascii) : bool :=
  (97 <=? nat_of_ascii c)%nat && (nat_of_ascii c <=? 122)%nat.

(** Upper-casing of one character; only a..z have an image that differs. *)
Definition upcase (c : ascii) : ascii :=
  if is_lower c then ascii_of_nat (nat_of_ascii c - 32) else c.

(** The letters a..z of a string made capitals, every other character
    kept: the canonical form under which the [i] flag compares an ASCII
    pattern with its input.  It is not [String.prototype.toUpperCase],
    which maps letters outside ASCII too; the authenticator takes that
    method from its host. *)
Fixpoint ascii_upper (s : string) : string :=
  match s with
  | EmptyString => EmptyString
  | String c rest => String (upcase c) (ascii_upper rest)
  end.

(** [p] is a prefix of [s]. *)
Fixpoint starts_with (p s : string) : bool :=
  match p, s with
  | EmptyString, _ => true
  | String a p', String b s' => Ascii.eqb a b && starts_with p' s'
  | String _ _, EmptyString => false
  end.

(** [hay.indexOf(needle) !== -1]. *)
Fixpoint includes (needle hay : string) : bool :=
  starts_with needle hay ||
  match hay with
  | EmptyString => false
  | String _ rest => includes needle rest
  end.

(** ** Regular expressions, as far as [isTokenUrl] needs them *)

Module Regex.
(** An alternation of literals, [/(l1|l2|...)/], with the [i] flag. *)
Definition t := list string.

(** Two characters match under [i] when their canonical (upper-case)
    forms coincide. *)
Definition char_eq_i (a b : ascii) : bool := Ascii.eqb (upcase a) (upcase b).

(** The literal [lit] matches at the start of [s]. *)
Fixpoint match_here (lit s : string) : bool :=
  match lit, s with
  | EmptyString, _ => true
  | String a lit', String b s' => char_eq_i a b && match_here lit' s'
  | String _ _, EmptyString => false
  end.

(** [regex.test(s)] for a freshly made regex (lastIndex = 0): some
    alternative matches at some position of [s]. *)
Fixpoint test (re : t) (s : string) : bool :=
  existsb (fun lit => match_here lit s) re ||
  match s with
  | EmptyString => false
  | String _ rest => test re rest
  end.
End Regex.

(** [Authenticator.isTokenUrl]: the regex literal is evaluated anew on each
    call, so the [g] flag's lastIndex is always 0 when [test] runs. *)
Definition isTokenUrl (url : string) : bool :=
  Regex.test ["access_token"; "code"; "error"] url.

(** [s] occurs in [url] up to the case of letters. *)
Definition occurs_ignoring_case (s url : string) : Prop :=
  exists pre mid post : string,
    url = (pre ++ mid ++ post)%string /\ ascii_upper mid = ascii_upper s.

(** ** State of an authenticator and of its host *)

Inductive AuthenticationMode := Dialog | Redirect.

(** Everything the authenticator does to its host, in program order. *)
Inductive Event :=
| ConsoleWarn (msg : string)
| WindowOpen (url name features : string) (popupWindow : bool)
| PopupClose
| SetInterval (ms : Z)
| ClearInterval
| DisplayDialogAsync (url : string)
| AddEventHandler
| DialogClose
| LocationReplace (url : string)
| XhrOpen (method url : string)
| XhrSetRequestHeader (header val : string)
| XhrSend (body : string)
| MessageParent (message : string).

(** The fields of an [Authenticator] instance, and the log of its effects.

    Modelled from the spec: [EndpointManager] and [TokenManager] are not
    part of the sources at hand.  The endpoint registry is a mapping from
    provider name to endpoint, the token store a mapping from provider
    name to token record, with [get] a lookup and [add] an insertion
    under the provider key. *)
Record State := mkState {
  endpoints : gmap string Endpoint.t;
  tokens : gmap string value;
  mode : AuthenticationMode;
  log : list Event
}.

Definition emit (es : list Event) (st : State) : State :=
  mkState (endpoints st) (tokens st) (mode st) (log st ++ es).

(** [this.tokens.get(provider)]; a missing entry reads as [undefined]. *)
Definition tokens_get (st : State) (provider : string) : value :=
  default VUndefined (tokens st !! provider).

(** [this.tokens.add(provider, token)]. *)
Definition tokens_add (provider : string) (token : value) (st : State) : State :=
  mkState (endpoints st) (<[provider := token]> (tokens st)) (mode st) (log st).

(** The object that [tokens.get] returns is the one the store holds: an
    assignment to one of its properties shows in the store's entry. *)
Definition write_through (provider : string) (token : value) (st : State) : State :=
  mkState (endpoints st) (<[provider := token]> (tokens st)) (mode st) (log st).

(** [this.endpoints.get(provider)]; [None] is a null endpoint. *)
Definition endpoints_get (st : State) (provider : string) : option Endpoint.t :=
  endpoints st !! provider.

(** The constructor.  A manager that the caller leaves out is made anew,
    and then holds what was persisted ([stored_endpoints], [stored_tokens]).
    [this.mode = authenticationMode || AuthenticationMode.Dialog]: [Dialog]
    is the enum member 0, which is falsy. *)
Definition new_Authenticator (stored_endpoints : gmap string Endpoint.t)
    (stored_tokens : gmap string value)
    (endpoints : option (gmap string Endpoint.t))
    (tokens : option (gmap string value))
    (authenticationMode : option AuthenticationMode) : State :=
  mkState (default stored_endpoints endpoints) (default stored_tokens tokens)
    (match authenticationMode with
     | Some Redirect => Redirect
     | Some Dialog | None => Dialog
     end) [].

(** What the host decides: the clock, the execution context, whether
    [window.open] hands back a window or null and [setInterval] works, and
    its [String.prototype.toUpperCase]. *)
Record Host := mkHost {
  now : Z;
  isAddin : bool;
  window_open : bool;
  setInterval : completion unit;
  String_toUpperCase : string -> string
}.

(** A promise returned by the authenticator: settled, or pending.  A
    pending promise waits for the interval callback of the popup, for the
    callback of [displayDialogAsync], for a message of the dialog, or for
    the response of the token endpoint; [Stalled] is a pending promise that
    no callback is left to settle. *)
Inductive Promise :=
| Resolved (v : value)
| Rejected (reason : value)
| Polling (endpoint : Endpoint.t) (popupWindow : bool)
| DialogOpening (endpoint : Endpoint.t)
| DialogListening (endpoint : Endpoint.t)
| AwaitingResponse (endpoint : Endpoint.t)
| Stalled.

Definition is_settled (p : Promise) : bool :=
  match p with
  | Resolved _ | Rejected _ => true
  | _ => false
  end.

(** One reading taken by an interval tick.  [closed] is what
    [popupWindow.closed] would read (the user has closed the popup); the
    callback never looks at it.  [first] and [second] are the two
    evaluations of [popupWindow.document.URL] of lines 212 and 216. *)
Record Tick := mkTick {
  closed : bool;
  first : completion string;
  second : completion string
}.

(** What the host calls back with. *)
Inductive Callback :=
| IntervalTick (t : Tick)
| DialogCallback (dialog : bool)
| DialogMessageReceived (message : option string)
| XhrLoad (status : Z) (responseText : string)
| XhrFault.

(** [date.getTime() - now < 0]; every comparison with NaN is false. *)
Definition before (t : timeval) (now : Z) : bool :=
  match t with
  | Some ms => ms - now <? 0
  | None => false
  end.

Definition no_token_parsed : value :=
  IError (VStr "No access_token or code could be parsed.").

Definition null_read (prop : string) : value :=
  VError TypeError ("Cannot read property '" ++ prop ++ "' of null").

Definition newline : string := String (ascii_of_nat 10) EmptyString.

Definition indent : string := "                    ".

Definition exchange_warning : string :=
  "We couldn't exchange the received code for an access_token." ++ newline ++
  indent ++ "The value returned is not an access_token." ++ newline ++
  indent ++ "Please set the tokenUrl property or refer to our docs.".

Definition windowFeatures : string :=
  "width=400,height=600" ++
  ",menubar=no,toolbar=no,location=no,resizable=no,scrollbars=yes,status=no".

Definition POLL_INTERVAL : Z := 400.

(** ** The authenticator *)

Module Authenticator.

Section Methods.

(** [EndpointManager.getLoginUrl] and [TokenManager.getToken] live in
    modules that are not part of the sources at hand, and [JSON] and
    [Date] belong to the platform: the authenticator is embedded over any
    behaviour of theirs. *)
Variable getLoginUrl : Endpoint.t -> string.
Variable getToken : string -> string -> value.
Variable JSON_parse : string -> completion value.
Variable JSON_stringify : value -> string.
Variable new_Date : value -> timeval.

(** [v instanceof Date ? v : new Date(v)], as the time value of the date. *)
Definition as_Date (v : value) : timeval :=
  match v with
  | VDate t => t
  | _ => new_Date v
  end.

(** The body of a function value when it is called. *)
Definition call (f : Closure) (st : State) : value * State :=
  match f with
  | RedirectArrow endpoint provider =>
      (IError (VStr ("Redirecting to endpoint: " ++ provider)),
       emit [LocationReplace (getLoginUrl endpoint)] st)
  end.

(** The handler of [xhr.onload] in [exchangeCodeForToken]; [xhr.response]
    is the response text, the request's [responseType] being left at its
    default. *)
Definition onload (endpoint : Endpoint.t) (status : Z) (responseText : string)
    (st : State) : Promise * State :=
  if status =? 200 then
    match JSON_parse responseText with
    | Throw e => (Rejected (IError e), st)
    | Normal json =>
        match js_in "access_token" json with
        | Throw e => (Rejected (IError e), st)
        | Normal true =>
            (Resolved json, tokens_add (Endpoint.provider endpoint) json st)
        | Normal false => (Rejected json, st)
        end
    end
  else (Rejected (IError (VStr ("Request failed. " ++ responseText))), st).

(** The [for .. in] loop over the caller's headers. *)
Fixpoint set_headers (headers : list (string * string)) : list Event :=
  match headers with
  | [] => []
  | (header, val) :: rest =>
      if String.eqb header "Accept" || String.eqb header "Content-Type"
      then set_headers rest
      else XhrSetRequestHeader header val :: set_headers rest
  end.

(** [exchangeCodeForToken]: the promise executor runs at once; an
    exception it raises rejects the promise with that exception. *)
Definition exchangeCodeForToken (provider : string) (data : value)
    (headers : list (string * string)) (st : State) : Promise * State :=
  match endpoints_get st provider with
  | None => (Rejected (null_read "tokenUrl"), st)
  | Some endpoint =>
      match Endpoint.tokenUrl endpoint with
      | None => (Resolved data, emit [ConsoleWarn exchange_warning] st)
      | Some tokenUrl =>
          (AwaitingResponse endpoint,
           emit ([XhrOpen "POST" tokenUrl;
                  XhrSetRequestHeader "Accept" "application/json";
                  XhrSetRequestHeader "Content-Type" "application/json"]
                 ++ set_headers headers
                 ++ [XhrSend (JSON_stringify data)]) st)
      end
  end.

(** The branches on the payload shared by the popup and the dialog:
    [code] goes to the exchange, [access_token] to the store, anything
    else is a rejection; [catch] is the handler of the enclosing [try]. *)
Definition classify (endpoint : Endpoint.t) (result : value)
    (catch : value -> Promise * State) (st : State) : Promise * State :=
  match js_in "code" result with
  | Throw e => catch e
  | Normal true => exchangeCodeForToken (Endpoint.provider endpoint) result [] st
  | Normal false =>
      match js_in "access_token" result with
      | Throw e => catch e
      | Normal true =>
          (Resolved result, tokens_add (Endpoint.provider endpoint) result st)
      | Normal false => (Rejected result, st)
      end
  end.

(** [popupWindow.document.URL]: a [TypeError] on a null window. *)
Definition document_URL (popupWindow : bool) (reading : completion string)
  : completion string :=
  if popupWindow then reading else Throw (null_read "document").

(** The [catch] clause of the interval callback.  [otherwise] is the
    state of the promise when the exception is swallowed. *)
Definition poll_catch (popupWindow : bool) (otherwise : Promise)
    (exception : value) (st : State) : Promise * State :=
  if negb popupWindow
  then (Rejected (IError exception), emit [ClearInterval] st)
  else (otherwise, st).

(** The interval callback of [_openInWindowPopup]. *)
Definition poll (endpoint : Endpoint.t) (popupWindow : bool) (t : Tick)
    (st : State) : Promise * State :=
  let polling := Polling endpoint popupWindow in
  match document_URL popupWindow (first t) with
  | Throw exception => poll_catch popupWindow polling exception st
  | Normal URL =>
      if includes (Endpoint.redirectUrl endpoint) URL then
        let st := emit [ClearInterval; PopupClose] st in
        match document_URL popupWindow (second t) with
        | Throw exception => poll_catch popupWindow Stalled exception st
        | Normal URL' =>
            let result := getToken URL' (Endpoint.redirectUrl endpoint) in
            if is_nullish result then (Rejected no_token_parsed, st)
            else classify endpoint result
                   (fun e => poll_catch popupWindow Stalled e st) st
        end
      else (polling, st)
  end.

(** [_openInWindowPopup]. *)
Definition _openInWindowPopup (h : Host) (endpoint : Endpoint.t) (st : State)
  : Promise * State :=
  let url := getLoginUrl endpoint in
  let popupWindow := window_open h in
  let st := emit [WindowOpen url (String_toUpperCase h (Endpoint.provider endpoint))
                    windowFeatures popupWindow] st in
  match setInterval h with
  | Normal _ => (Polling endpoint popupWindow, emit [SetInterval POLL_INTERVAL] st)
  | Throw exception =>
      if popupWindow
      then (Rejected (IError exception), emit [PopupClose] st)
      else (Rejected (null_read "close"), st)
  end.

(** [_openInDialog]: the promise waits for the callback of
    [displayDialogAsync].  The size options do not bear on the flow. *)
Definition _openInDialog (endpoint : Endpoint.t) (st : State) : Promise * State :=
  let url := getLoginUrl endpoint in
  (DialogOpening endpoint, emit [DisplayDialogAsync url] st).

(** The callback of [displayDialogAsync]: [result.value] is the dialog,
    or undefined, on which [addEventHandler] throws out of the callback. *)
Definition on_dialog (endpoint : Endpoint.t) (dialog : bool) (st : State)
  : Promise * State :=
  if dialog then (DialogListening endpoint, emit [AddEventHandler] st)
  else (Stalled, st).

(** The handler of [DialogMessageReceived]. *)
Definition on_message (endpoint : Endpoint.t) (message : option string)
    (st : State) : Promise * State :=
  let st := emit [DialogClose] st in
  match message with
  | None => (Rejected no_token_parsed, st)
  | Some message =>
      if String.eqb message EmptyString then (Rejected no_token_parsed, st)
      else
        match JSON_parse message with
        | Throw exception => (Rejected (IError exception), st)
        | Normal json =>
            classify endpoint json
              (fun exception => (Rejected (IError exception), st)) st
        end
  end.

(** The token as the cache check leaves it: a non-null [expires_at] that
    is not a [Date] has been replaced by the [Date] made from it. *)
Definition normalize_expires_at (token : value) : value :=
  if is_nullish (get_prop token "expires_at") then token
  else set_prop token "expires_at" (VDate (as_Date (get_prop token "expires_at"))).

(** The expiry test of the cache check, on a token and the current time. *)
Definition has_expired (now : Z) (token : value) : bool :=
  negb (is_nullish (get_prop token "expires_at")) &&
  before (as_Date (get_prop token "expires_at")) now.

(** [authenticate].  The cache check rebinds [token], [force] and the
    state; the assignment to [token.expires_at] is a write to the object
    that the store handed out. *)
Definition authenticate (h : Host) (provider : string) (force : bool)
    (st : State) : Promise * State :=
  let token := tokens_get st provider in
  let '(token, force, st) :=
    if negb (is_nullish token) then
      if negb (is_nullish (get_prop token "expires_at")) then
        let expires_at := as_Date (get_prop token "expires_at") in
        let token := set_prop token "expires_at" (VDate expires_at) in
        let st := write_through provider token st in
        if before expires_at (now h) then
          (token, true,
           emit [ConsoleWarn ("Token for provider: " ++ provider ++
                              " has expired. Re-authenticating...")] st)
        else (token, force, st)
      else (token, force, st)
    else (token, force, st) in
  if negb (is_nullish token) && negb force then (Resolved token, st)
  else
    match endpoints_get st provider with
    | None =>
        (Rejected (IError (VStr ("No such registered endpoint: " ++ provider ++
                                 " could be found."))), st)
    | Some endpoint =>
        match mode st with
        | Redirect => (Rejected (VFun (RedirectArrow endpoint provider)), st)
        | Dialog =>
            if isAddin h then _openInDialog endpoint st
            else _openInWindowPopup h endpoint st
        end
    end.

(** Two views of [authenticate], for stating its properties: the state
    the cache check leaves behind, and the steps from the endpoint lookup
    on. *)
Definition after_cache_check (now : Z) (provider : string) (st : State) : State :=
  let token := tokens_get st provider in
  if is_nullish (get_prop token "expires_at") then st
  else
    let st := write_through provider (normalize_expires_at token) st in
    if before (as_Date (get_prop token "expires_at")) now
    then emit [ConsoleWarn ("Token for provider: " ++ provider ++
                            " has expired. Re-authenticating...")] st
    else st.

Definition open_surface (h : Host) (provider : string) (st : State)
  : Promise * State :=
  match endpoints_get st provider with
  | None =>
      (Rejected (IError (VStr ("No such registered endpoint: " ++ provider ++
                               " could be found."))), st)
  | Some endpoint =>
      match mode st with
      | Redirect => (Rejected (VFun (RedirectArrow endpoint provider)), st)
      | Dialog =>
          if isAddin h then _openInDialog endpoint st
          else _openInWindowPopup h endpoint st
      end
  end.

(** [isAuthDialog], given [Authenticator.isAddin], [location.href] and
    [location.origin]: the result and what was sent to the parent. *)
Definition isAuthDialog (isAddin : bool) (href origin : string)
  : bool * list Event :=
  if negb isAddin then (false, [])
  else if negb (isTokenUrl href) then (false, [])
  else
    let token := getToken href origin in
    (true, [MessageParent (JSON_stringify token)]).

(** A callback of the host reaches the promise that waits for it.  A
    cleared interval ticks no more, and a dialog that its first message
    closed sends no second one. *)
Definition deliver (cb : Callback) (p : Promise) (st : State) : Promise * State :=
  match p, cb with
  | Polling endpoint popupWindow, IntervalTick t => poll endpoint popupWindow t st
  | DialogOpening endpoint, DialogCallback dialog => on_dialog endpoint dialog st
  | DialogListening endpoint, DialogMessageReceived message =>
      on_message endpoint message st
  | AwaitingResponse endpoint, XhrLoad status responseText =>
      onload endpoint status responseText st
  | _, _ => (p, st)
  end.

Fixpoint run (cbs : list Callback) (p : Promise) (st : State) : Promise * State :=
  match cbs with
  | [] => (p, st)
  | cb :: rest => let '(p, st) := deliver cb p st in run rest p st
  end.

End Methods.

End Authenticator.

(** ** Reading the log: surfaces and timers *)

(** A popup that [window.open] delivered, or a dialog that was asked for. *)
Definition opens_surface (e : Event) : bool :=
  match e with
  | WindowOpen _ _ _ true | DisplayDialogAsync _ => true
  | _ => false
  end.

Definition closes_surface (e : Event) : bool :=
  match e with
  | PopupClose | DialogClose => true
  | _ => false
  end.

(** How many surfaces the events opened. *)
Definition surfaces_opened (es : list Event) : nat :=
  length (List.filter opens_surface es).

(** Whether a surface is open after the events, given it was before. *)
Definition surface_after (es : list Event) (live : bool) : bool :=
  fold_left (fun live e =>
               if opens_surface e then true
               else if closes_surface e then false
               else live) es live.

Definition surface_live (es : list Event) : bool := surface_after es false.

(** Whether the polling interval is armed after the events. *)
Definition interval_after (es : list Event) (armed : bool) : bool :=
  fold_left (fun armed e =>
               match e with
               | SetInterval _ => true
               | ClearInterval => false
               | _ => armed
               end) es armed.

Definition interval_armed (es : list Event) : bool := interval_after es false.

(** What the events of one [authenticate] call look like while its promise
    is in state [p]: one surface at most was opened; a settled promise, and
    one that waits for the token endpoint, has neither a live surface nor
    an armed interval. *)
Definition tidy (p : Promise) (es : list Event) : Prop :=
  (surfaces_opened es <= 1)%nat /\
  match p with
  | Polling _ popupWindow => surface_live es = popupWindow
  | DialogOpening _ | DialogListening _ => interval_armed es = false
  | Stalled => True
  | Resolved _ | Rejected _ | AwaitingResponse _ =>
      surface_live es = false /\ interval_armed es = false
  end.

(** The outcome [r] of a step taken in state [st], [evs] being the events
    of the call so far: the step appends its events to the log, and the
    events of the call stay tidy. *)
Definition advances (st : State) (evs : list Event) (r : Promise * State) : Prop :=
  exists es, log (snd r) = (log st ++ es)%list /\ tidy (fst r) (evs ++ es).

Definition navigates (e : Event) : bool :=
  match e with
  | LocationReplace _ => true
  | _ => false
  end.

Definition is_warning (e : Event) : bool :=
  match e with
  | ConsoleWarn _ => true
  | _ => false
  end.

Definition is_xhr (e : Event) : bool :=
  match e with
  | XhrOpen _ _ | XhrSetRequestHeader _ _ | XhrSend _ => true
  | _ => false
  end.

(** ** A sample host, for running the embedding on concrete inputs *)

Module Sample.

Definition quote : string := String (ascii_of_nat 34) EmptyString.

Definition getLoginUrl (endpoint : Endpoint.t) : string :=
  Endpoint.baseUrl endpoint ++ Endpoint.authorizeUrl endpoint ++
  "?response_type=" ++ Endpoint.responseType endpoint ++
  "&client_id=" ++ Endpoint.clientId endpoint ++
  "&redirect_uri=" ++ Endpoint.redirectUrl endpoint.

Definition getToken (url exclude : string) : value :=
  if includes "access_token=tok123" url
  then VObj [("access_token", VStr "tok123")]
  else if includes "code=abc" url then VObj [("code", VStr "abc")]
  else if includes "error=access_denied" url
  then VObj [("error", VStr "access_denied")]
  else VNull.

Definition token_body : string :=
  "{" ++ quote ++ "access_token" ++ quote ++ ":" ++ quote ++ "tok123" ++ quote ++
  "," ++ quote ++ "expires_in" ++ quote ++ ":3600}".

Definition error_body : string :=
  "{" ++ quote ++ "error" ++ quote ++ ":" ++ quote ++ "invalid_grant" ++ quote ++ "}".

Definition JSON_parse (text : string) : completion value :=
  if String.eqb text token_body
  then Normal (VObj [("access_token", VStr "tok123"); ("expires_in", VNum 3600)])
  else if String.eqb text error_body
  then Normal (VObj [("error", VStr "invalid_grant")])
  else if String.eqb text "null" then Normal VNull
  else if String.eqb text "[]" then Normal (VArr [])
  else Throw (VError SyntaxError "Unexpected token").

Definition JSON_stringify (v : value) : string :=
  match v with
  | VNull | VUndefined => "null"
  | VBool true => "true"
  | VBool false => "false"
  | VArr [] => "[]"
  | VObj [] => "{}"
  | VObj [("code", VStr c)] =>
      "{" ++ quote ++ "code" ++ quote ++ ":" ++ quote ++ c ++ quote ++ "}"
  | _ => "{}"
  end.

Definition new_Date (v : value) : timeval :=
  match v with
  | VNum n => Some n
  | _ => None
  end.

Definition contoso : Endpoint.t :=
  Endpoint.mk "Contoso" "client-1" "https://login.contoso.com" "/authorize"
    "https://app.contoso.com/auth" (Some "https://app.contoso.com/token")
    None "code".

(** An endpoint without a token URL. *)
Definition fabrikam : Endpoint.t :=
  Endpoint.mk "Fabrikam" "client-2" "https://login.fabrikam.com" "/authorize"
    "https://app.fabrikam.com/auth" None None "token".

Definition registry : gmap string Endpoint.t :=
  <["Contoso" := contoso]> (<["Fabrikam" := fabrikam]> ∅).

Definition cached : value :=
  VObj [("access_token", VStr "tok123"); ("expires_at", VNum 5000)].

Definition bare : value := VObj [("access_token", VStr "tok123"); ("expires_in", VNum 1)].

Definition browser (now : Z) : Host :=
  mkHost now false true (Normal tt) ascii_upper.

Definition addin (now : Z) : Host :=
  mkHost now true true (Normal tt) ascii_upper.

Definition fresh (mode : AuthenticationMode) : State :=
  new_Authenticator ∅ ∅ (Some registry) None (Some mode).

(** A store that holds a token for a provider nobody registered. *)
Definition orphan (token : value) : State :=
  mkState registry (<["Woodgrove" := token]> ∅) Dialog [].

(** A store that holds a token for a registered provider. *)
Definition returning (token : value) : State :=
  mkState registry (<["Contoso" := token]> ∅) Dialog [].

Definition authenticate := Authenticator.authenticate getLoginUrl new_Date.
Definition exchangeCodeForToken := Authenticator.exchangeCodeForToken JSON_stringify.
Definition deliver := Authenticator.deliver getToken JSON_parse JSON_stringify.
Definition run := Authenticator.run getToken JSON_parse JSON_stringify.
Definition poll := Authenticator.poll getToken JSON_stringify.
Definition isAuthDialog := Authenticator.isAuthDialog getToken JSON_stringify.

End Sample.

(** ** The static context flag *)

(** What [window] shows of the Office runtime: whether it has an [Office]
    property of its own, and what evaluating [Office.context.ui == null]
    gives (it throws when [Office.context] is missing). *)
Record OfficeGlobal := mkOfficeGlobal {
  has_Office : bool;
  ui_is_null : completion bool
}.

(** The getter [Authenticator.isAddin] on the static field [_isAddin]
    ([None] is null): the value read, and the field afterwards.  The right
    operand of [&&] is evaluated only when the left one is true; an
    exception leaves the field as it was. *)
Definition get_isAddin (w : OfficeGlobal) (_isAddin : option bool)
  : completion bool * option bool :=
  match _isAddin with
  | Some flag => (Normal flag, Some flag)
  | None =>
      if has_Office w then
        match ui_is_null w with
        | Normal null => (Normal (negb null), Some (negb null))
        | Throw e => (Throw e, None)
        end
      else (Normal false, Some false)
  end.

(** ** Frames of a call *)

(** Every endpoint sits in the registry under its own provider name. *)
Definition well_keyed (registry : gmap string Endpoint.t) : Prop :=
  forall k endpoint, registry !! k = Some endpoint -> Endpoint.provider endpoint = k.

(** The endpoint a pending promise works for has an allowed provider name. *)
Definition pending_within (allowed : string -> Prop) (p : Promise) : Prop :=
  match p with
  | Polling endpoint _ | DialogOpening endpoint | DialogListening endpoint
  | AwaitingResponse endpoint => allowed (Endpoint.provider endpoint)
  | Resolved _ | Rejected _ | Stalled => True
  end.

(** Looking up an allowed name in the registry gives an endpoint whose
    provider name is allowed too. *)
Definition closed_under_lookup (allowed : string -> Prop)
    (registry : gmap string Endpoint.t) : Prop :=
  forall k endpoint,
    allowed k -> registry !! k = Some endpoint -> allowed (Endpoint.provider endpoint).

(** The events the authenticator and its callbacks can add to the log:
    all but a navigation of the page and a message to a parent. *)
Definition stays_on_page (e : Event) : bool :=
  match e with
  | LocationReplace _ | MessageParent _ => false
  | _ => true
  end.

(** [st'] differs from [st] at most in tokens of allowed providers and in
    events that stay on the page. *)
Definition changes_within (allowed : string -> Prop) (st st' : State) : Prop :=
  endpoints st' = endpoints st /\
  mode st' = mode st /\
  (forall q, ~ allowed q -> tokens st' !! q = tokens st !! q) /\
  exists es, log st' = (log st ++ es)%list /\ forallb stays_on_page es = true.

(** The endpoint a pending promise works for. *)
Definition endpoint_of (p : Promise) : option Endpoint.t :=
  match p with
  | Polling endpoint _ | DialogOpening endpoint | DialogListening endpoint
  | AwaitingResponse endpoint => Some endpoint
  | Resolved _ | Rejected _ | Stalled => None
  end.

(** The requests by which [authenticate] opens its surface for an
    endpoint: the dialog in an add-in, the popup and its interval in a
    browser. *)
Definition surface_request (getLoginUrl : Endpoint.t -> string) (h : Host)
    (endpoint : Endpoint.t) : list Event :=
  if isAddin h then [DisplayDialogAsync (getLoginUrl endpoint)]
  else [WindowOpen (getLoginUrl endpoint)
          (String_toUpperCase h (Endpoint.provider endpoint))
          windowFeatures (window_open h);
        SetInterval POLL_INTERVAL].

(** The header names that [exchangeCodeForToken] keeps to itself. *)
Definition reserved (header : string) : bool :=
  String.eqb header "Accept" || String.eqb header "Content-Type".

(** ** A second sample host: a dialog page that sends both a code and a token *)

Module DialogSample.

Definition both_body : string :=
  "{" ++ Sample.quote ++ "access_token" ++ Sample.quote ++ ":" ++
  Sample.quote ++ "tok123" ++ Sample.quote ++ "," ++
  Sample.quote ++ "code" ++ Sample.quote ++ ":" ++
  Sample.quote ++ "abc" ++ Sample.quote ++ "}".

Definition JSON_parse (text : string) : completion value :=
  if String.eqb text both_body
  then Normal (VObj [("access_token", VStr "tok123"); ("code", VStr "abc")])
  else Sample.JSON_parse text.

Definition deliver :=
  Authenticator.deliver Sample.getToken JSON_parse Sample.JSON_stringify.

(** A token whose [expires_at] no date can be made of. *)
Definition undated : value :=
  VObj [("access_token", VStr "tok123"); ("expires_at", VStr "soon")].

(** A browser that refuses popups. *)
Definition blocking (now : Z) : Host :=
  mkHost now false false (Normal tt) ascii_upper.

End DialogSample.

(** * Properties *)

(** ** Objects and strings *)

Lemma assoc_assign_eq k v fields : assoc k (assign k v fields) = Some v.
Proof.
  induction fields as [|[k' v'] rest IH]; simpl.
  - now rewrite String.eqb_refl.
  - destruct (String.eqb k k') eqn:E; simpl; rewrite ?String.eqb_refl, ?E; auto.
Qed.

Lemma assoc_assign_ne k k' v fields :
  k <> k' -> assoc k' (assign k v fields) = assoc k' fields.
Proof.
  intros Hne. induction fields as [|[k0 v0] rest IH]; simpl.
  - destruct (String.eqb k' k) eqn:E; [apply String.eqb_eq in E; congruence | reflexivity].
  - destruct (String.eqb k k0) eqn:E; simpl.
    + apply String.eqb_eq in E. subst k0.
      destruct (String.eqb k' k) eqn:E'; [apply String.eqb_eq in E'; congruence | reflexivity].
    + now rewrite IH.
Qed.

Lemma assign_same k v fields : assoc k fields = Some v -> assign k v fields = fields.
Proof.
  induction fields as [|[k' v'] rest IH]; simpl; [discriminate|].
  destruct (String.eqb k k') eqn:E.
  - apply String.eqb_eq in E. intros [= ->]. now subst.
  - intros H. now rewrite IH.
Qed.

Lemma upcase_eqb_spec a b : Regex.char_eq_i a b = true <-> upcase a = upcase b.
Proof. unfold Regex.char_eq_i. apply Ascii.eqb_eq. Qed.

(** A literal matches at the head of [s] exactly when [s] starts with the
    literal up to case. *)
Lemma match_here_spec lit : forall s,
  Regex.match_here lit s = true <->
  exists mid post, s = (mid ++ post)%string /\ ascii_upper mid = ascii_upper lit.
Proof.
  induction lit as [|a lit IH]; intros s; simpl.
  - split; [intros _; exists EmptyString, s; auto | auto].
  - destruct s as [|b s]; simpl.
    + split; [discriminate|]. intros (mid & post & Hs & Hu).
      destruct mid; simpl in *; discriminate.
    + rewrite andb_true_iff, upcase_eqb_spec, IH. split.
      * intros (Hab & mid & post & -> & Hu).
        exists (String b mid), post. simpl. split; [reflexivity|]. congruence.
      * intros (mid & post & Hs & Hu). destruct mid as [|c mid]; simpl in *; [discriminate|].
        injection Hs as -> ->. injection Hu as Hc Hu. split; [congruence|].
        exists mid, post. auto.
Qed.

Lemma regex_test_spec re : forall s,
  Regex.test re s = true <->
  exists lit, In lit re /\ occurs_ignoring_case lit s.
Proof.
  induction s as [|c s IH]; simpl.
  - rewrite orb_false_r, existsb_exists. split.
    + intros (lit & Hin & Hm). exists lit. split; [assumption|].
      apply match_here_spec in Hm as (mid & post & Hs & Hu).
      exists EmptyString, mid, post. auto.
    + intros (lit & Hin & pre & mid & post & Hs & Hu). exists lit. split; [assumption|].
      apply match_here_spec. destruct pre; simpl in Hs; [|discriminate].
      exists mid, post. auto.
  - rewrite orb_true_iff, existsb_exists, IH. split.
    + intros [(lit & Hin & Hm) | (lit & Hin & pre & mid & post & Hs & Hu)].
      * exists lit. split; [assumption|].
        apply match_here_spec in Hm as (mid & post & Hs & Hu).
        exists EmptyString, mid, post. auto.
      * exists lit. split; [assumption|].
        exists (String c pre), mid, post. simpl. split; [now rewrite Hs | assumption].
    + intros (lit & Hin & pre & mid & post & Hs & Hu).
      destruct pre as [|c' pre]; simpl in Hs.
      * left. exists lit. split; [assumption|]. apply match_here_spec.
        exists mid, post. auto.
      * right. injection Hs as -> ->. exists lit. split; [assumption|].
        exists pre, mid, post. auto.
Qed.

Example isTokenUrl_barcode : isTokenUrl "https://contoso.com/barCODE/index.html" = true.
Proof. reflexivity. Qed.

Example isTokenUrl_plain : isTokenUrl "https://contoso.com/index.html" = false.
Proof. reflexivity. Qed.

(** ** The methods of the authenticator *)

Section Properties.

#[local] Set Default Proof Using "Type".

Variable getLoginUrl : Endpoint.t -> string.
Variable getToken : string -> string -> value.
Variable JSON_parse : string -> completion value.
Variable JSON_stringify : value -> string.
Variable new_Date : value -> timeval.

#[local] Abbreviation authenticate := (Authenticator.authenticate getLoginUrl new_Date).
#[local] Abbreviation exchangeCodeForToken := (Authenticator.exchangeCodeForToken JSON_stringify).
#[local] Abbreviation isAuthDialog := (Authenticator.isAuthDialog getToken JSON_stringify).
#[local] Abbreviation poll := (Authenticator.poll getToken JSON_stringify).
#[local] Abbreviation deliver := (Authenticator.deliver getToken JSON_parse JSON_stringify).
#[local] Abbreviation run := (Authenticator.run getToken JSON_parse JSON_stringify).
#[local] Abbreviation has_expired := (Authenticator.has_expired new_Date).
#[local] Abbreviation normalize_expires_at := (Authenticator.normalize_expires_at new_Date).
#[local] Abbreviation after_cache_check := (Authenticator.after_cache_check new_Date).
#[local] Abbreviation open_surface := (Authenticator.open_surface getLoginUrl).

(** *** The cache check *)

Lemma is_nullish_get_prop (token : value) (k : string) :
  is_nullish (get_prop token k) = false -> exists fields, token = VObj fields.
Proof. destruct token; simpl; try discriminate. eauto. Qed.

Lemma authenticate_eq (h : Host) (provider : string) (force : bool) (st : State) :
  authenticate h provider force st =
  let token := tokens_get st provider in
  let st' := after_cache_check (now h) provider st in
  if negb (is_nullish token) && negb (force || has_expired (now h) token)
  then (Resolved (normalize_expires_at token), st')
  else open_surface h provider st'.
Proof.
  unfold Authenticator.authenticate, Authenticator.after_cache_check,
    Authenticator.has_expired, Authenticator.normalize_expires_at,
    Authenticator.open_surface.
  cbv zeta.
  destruct (is_nullish (tokens_get st provider)) eqn:Htok; simpl.
  - destruct (tokens_get st provider); try discriminate; reflexivity.
  - destruct (is_nullish (get_prop (tokens_get st provider) "expires_at")) eqn:Hexp; simpl.
    + rewrite Htok, orb_false_r. simpl. destruct force; reflexivity.
    + destruct (is_nullish_get_prop _ _ Hexp) as [fields Hobj].
      rewrite Hobj in *. simpl.
      destruct (before _ (now h)); simpl.
      * rewrite orb_true_r. reflexivity.
      * rewrite orb_false_r. destruct force; reflexivity.
Qed.

Lemma write_through_same (provider : string) (token : value) (st : State) :
  tokens st !! provider = Some token -> write_through provider token st = st.
Proof.
  intros H. destruct st as [eps toks m l]. unfold write_through. simpl in *.
  f_equal. now apply insert_id.
Qed.

Lemma normalize_keeps_fields (token : value) (k : string) :
  k <> "expires_at" ->
  get_prop (normalize_expires_at token) k = get_prop token k.
Proof.
  intros Hk. unfold Authenticator.normalize_expires_at.
  destruct (is_nullish (get_prop token "expires_at")); [reflexivity|].
  destruct token; try reflexivity. simpl.
  rewrite assoc_assign_ne; [reflexivity | congruence].
Qed.

Lemma normalize_same_instant (token : value) :
  Authenticator.as_Date new_Date (get_prop (normalize_expires_at token) "expires_at") =
  Authenticator.as_Date new_Date (get_prop token "expires_at").
Proof.
  unfold Authenticator.normalize_expires_at.
  destruct (is_nullish (get_prop token "expires_at")) eqn:Hexp; [reflexivity|].
  destruct (is_nullish_get_prop _ _ Hexp) as [fields ->]. simpl.
  now rewrite assoc_assign_eq.
Qed.

Lemma normalize_of_Date (token : value) (t : timeval) :
  get_prop token "expires_at" = VDate t -> normalize_expires_at token = token.
Proof.
  intros H. unfold Authenticator.normalize_expires_at. rewrite H. simpl.
  destruct token; try reflexivity. simpl in *. f_equal. apply assign_same.
  destruct (assoc "expires_at" fields); simpl in H; congruence.
Qed.

(** The expiry test on a token whose [expires_at] is a valid [Date]: the
    instant lies before the current time. *)
Lemma has_expired_Date (now : Z) (token : value) (ms : Z) :
  get_prop token "expires_at" = VDate (Some ms) ->
  has_expired now token = (ms <? now).
Proof.
  intros H. unfold Authenticator.has_expired. rewrite H. simpl.
  destruct (ms - now <? 0) eqn:E, (ms <? now) eqn:E'; try reflexivity; lia.
Qed.


(** C10. [isTokenUrl url] is true exactly when [url] contains
    "access_token", "code" or "error" somewhere, whatever the case of the
    letters.  Hence, in an add-in, [isAuthDialog] on a current URL that
    merely contains "code" or "error" (in its path, say) returns true and
    sends the parent the payload parsed from that URL. *)
Theorem isTokenUrl_iff_marker_anywhere (url origin : string) :
  (isTokenUrl url = true <->
   occurs_ignoring_case "access_token" url \/
   occurs_ignoring_case "code" url \/
   occurs_ignoring_case "error" url) /\
  (occurs_ignoring_case "code" url \/ occurs_ignoring_case "error" url ->
   isAuthDialog true url origin =
     (true, [MessageParent (JSON_stringify (getToken url origin))])).
Proof.
  assert (Hiff : isTokenUrl url = true <->
                 occurs_ignoring_case "access_token" url \/
                 occurs_ignoring_case "code" url \/
                 occurs_ignoring_case "error" url).
  { unfold isTokenUrl. rewrite regex_test_spec. split.
    - intros (lit & Hin & Hocc). simpl in Hin.
      destruct Hin as [<- | [<- | [<- | []]]]; auto.
    - intros [H | [H | H]]; eexists; (split; [|exact H]); simpl; auto. }
  split; [exact Hiff|].
  intros H. unfold Authenticator.isAuthDialog. simpl.
  assert (Ht : isTokenUrl url = true).
{ apply Hiff. destruct H as [H | H]; [right; left | right; right]; exact H. }
  now rewrite Ht.
Qed.

(** C5. When the registered endpoint has no [tokenUrl],
    [exchangeCodeForToken] resolves with [data] itself; it sends no
    request and leaves the token store as it was. *)
Theorem exchange_without_tokenUrl_resolves_with_data
    (provider : string) (endpoint : Endpoint.t) (data : value)
    (headers : list (string * string)) (st : State) :
  endpoints st !! provider = Some endpoint ->
  Endpoint.tokenUrl endpoint = None ->
  let r := exchangeCodeForToken provider data headers st in
  fst r = Resolved data /\
  tokens (snd r) = tokens st /\
  exists es, log (snd r) = (log st ++ es)%list /\ existsb is_xhr es = false.
Proof.
  intros Hep Hurl. unfold Authenticator.exchangeCodeForToken, endpoints_get.
  rewrite Hep, Hurl. simpl. repeat split.
  exists [ConsoleWarn exchange_warning]. auto.
Qed.

(** C8. For a provider that the registry does not know,
    [exchangeCodeForToken] rejects with the [TypeError] raised by reading
    [tokenUrl] of the null endpoint: the reason is the exception itself,
    not an [{error: ...}] payload, and the token store is unchanged. *)
Theorem exchange_unregistered_rejects_with_TypeError
    (provider : string) (data : value) (headers : list (string * string))
    (st : State) :
  endpoints st !! provider = None ->
  let r := exchangeCodeForToken provider data headers st in
  (exists msg, fst r = Rejected (VError TypeError msg)) /\
  (forall e, fst r <> Rejected (IError e)) /\
  snd r = st.
Proof.
  intros Hep. unfold Authenticator.exchangeCodeForToken, endpoints_get.
  rewrite Hep. simpl. repeat split; [eexists; reflexivity | discriminate].
Qed.

(** C9. A cached token without an [expires_at] field is never taken for
    expired: [authenticate provider false] resolves with it, whatever the
    clock says and whatever else (an [expires_in], say) the token holds. *)
Theorem authenticate_without_expires_at_resolves
    (h : Host) (provider : string) (fields : list (string * value)) (st : State) :
  tokens st !! provider = Some (VObj fields) ->
  assoc "expires_at" fields = None ->
  authenticate h provider false st = (Resolved (VObj fields), st).
Proof.
  intros Htok Hexp. unfold Authenticator.authenticate, tokens_get.
  rewrite Htok. simpl. now rewrite Hexp.
Qed.


Lemma after_cache_check_frame (now : Z) (provider : string) (st : State) :
  endpoints (after_cache_check now provider st) = endpoints st /\
  mode (after_cache_check now provider st) = mode st /\
  exists es, log (after_cache_check now provider st) = (log st ++ es)%list /\
             forallb is_warning es = true /\
             (has_expired now (tokens_get st provider) = false -> es = []).
Proof.
  unfold Authenticator.after_cache_check, Authenticator.has_expired. cbv zeta.
  destruct (is_nullish (get_prop (tokens_get st provider) "expires_at")); simpl.
  - repeat split. exists []. rewrite app_nil_r. auto.
  - destruct (before _ now); simpl; repeat split.
    + eexists. split; [reflexivity|]. split; [reflexivity | discriminate].
    + exists []. rewrite app_nil_r. auto.
Qed.

Lemma open_surface_not_resolved (h : Host) (provider : string) (st : State) (v : value) :
  fst (open_surface h provider st) <> Resolved v.
Proof.
  unfold Authenticator.open_surface, Authenticator._openInDialog,
    Authenticator._openInWindowPopup.
  destruct (endpoints_get st provider); [|discriminate].
  destruct (mode st); [|discriminate].
  destruct (isAddin h); [discriminate|].
  destruct (setInterval h); [discriminate|].
  destruct (window_open h); discriminate.
Qed.

Lemma open_surface_unregistered (h : Host) (provider : string) (st : State) :
  endpoints st !! provider = None ->
  open_surface h provider st =
    (Rejected (IError (VStr ("No such registered endpoint: " ++ provider ++
                             " could be found."))), st).
Proof.
  intros H. unfold Authenticator.open_surface, endpoints_get. now rewrite H.
Qed.

Lemma open_surface_redirect (h : Host) (provider : string) (endpoint : Endpoint.t)
    (st : State) :
  endpoints st !! provider = Some endpoint ->
  mode st = Redirect ->
  open_surface h provider st = (Rejected (VFun (RedirectArrow endpoint provider)), st).
Proof.
  intros H Hm. unfold Authenticator.open_surface, endpoints_get. now rewrite H, Hm.
Qed.

(** C1, as the code has it.  For a provider that the registry does not
    know, [authenticate] never opens a surface, whatever the store holds
    and whatever [force] is: all it may log is a console warning.  It
    rejects with the "No such registered endpoint" payload whenever the
    cache check does not answer (no cached token, an expired one, or
    [force]); a cached token that has not expired is resolved with when
    [force] is false, the registry is not consulted. *)
Theorem authenticate_unregistered (h : Host) (provider : string) (force : bool)
    (st : State) :
  endpoints st !! provider = None ->
  let token := tokens_get st provider in
  let r := authenticate h provider force st in
  (exists es, log (snd r) = (log st ++ es)%list /\
              surfaces_opened es = 0%nat /\ forallb is_warning es = true) /\
  (is_nullish token = true \/ force = true \/ has_expired (now h) token = true ->
   fst r = Rejected (IError (VStr ("No such registered endpoint: " ++ provider ++
                                   " could be found.")))) /\
  (is_nullish token = false -> force = false -> has_expired (now h) token = false ->
   fst r = Resolved (normalize_expires_at token)).
Proof.
  intros Hep token r. subst r. rewrite authenticate_eq. cbv zeta. fold token.
  destruct (after_cache_check_frame (now h) provider st) as (He & _ & es & Hlog & Hw & _).
  assert (Hopen : open_surface h provider (after_cache_check (now h) provider st) =
                  (Rejected (IError (VStr ("No such registered endpoint: " ++ provider ++
                                           " could be found."))),
                   after_cache_check (now h) provider st)).
  { apply open_surface_unregistered. now rewrite He. }
  rewrite Hopen.
  assert (Hnone : surfaces_opened es = 0%nat).
  { clear -Hw. induction es as [|e es IH]; [reflexivity|].
    simpl in Hw. apply andb_true_iff in Hw as [He Hes].
    destruct e; try discriminate. exact (IH Hes). }
  split; [|split].
  - exists es. destruct (negb (is_nullish token) && _); simpl; auto.
  - intros [H | [H | H]]; rewrite H; simpl; rewrite ?andb_false_r, ?orb_true_r, ?andb_false_r;
      reflexivity.
  - intros H1 H2 H3. rewrite H1, H2, H3. reflexivity.
Qed.

(** C2. A cached token that has not expired is resolved with at once when
    [force] is false: the promise holds the store's token for the provider,
    which is the cached token with its [expires_at] made a [Date] of the
    same instant and every other field as it was (the very same token when
    [expires_at] is absent or a [Date] already); nothing is logged, so no
    surface opens.  With an expired cached token, [authenticate] does what
    it does under [force = true], and does not resolve from the cache. *)
Theorem authenticate_cache_check (h : Host) (provider : string) (T : value)
    (st : State) :
  tokens st !! provider = Some T ->
  is_nullish T = false ->
  (has_expired (now h) T = false ->
   let r := authenticate h provider false st in
   let T' := normalize_expires_at T in
   fst r = Resolved T' /\
   tokens (snd r) !! provider = Some T' /\
   (forall k, k <> "expires_at" -> get_prop T' k = get_prop T k) /\
   Authenticator.as_Date new_Date (get_prop T' "expires_at") =
     Authenticator.as_Date new_Date (get_prop T "expires_at") /\
   (is_nullish (get_prop T "expires_at") = true \/
    (exists t, get_prop T "expires_at" = VDate t) -> T' = T /\ snd r = st) /\
   log (snd r) = log st /\ endpoints (snd r) = endpoints st /\ mode (snd r) = mode st) /\
  (has_expired (now h) T = true ->
   forall force,
     authenticate h provider force st = authenticate h provider true st /\
     forall v, fst (authenticate h provider force st) <> Resolved v).
Proof.
  intros Htok Hnn.
  assert (HT : tokens_get st provider = T) by (unfold tokens_get; now rewrite Htok).
  split.
  - intros Hexp r T'. subst r T'. rewrite authenticate_eq. cbv zeta.
    rewrite HT, Hnn, Hexp. simpl.
    destruct (after_cache_check_frame (now h) provider st) as (He & Hm & es & Hlog & _ & Hes).
    rewrite HT in Hes. rewrite (Hes Hexp), app_nil_r in Hlog.
    repeat split; auto using normalize_keeps_fields, normalize_same_instant.
    + unfold Authenticator.after_cache_check. cbv zeta. rewrite HT.
      unfold Authenticator.has_expired in Hexp.
      unfold Authenticator.normalize_expires_at.
      destruct (is_nullish (get_prop T "expires_at")); simpl in *; [assumption|].
      rewrite Hexp. simpl. apply lookup_insert_eq.
    + destruct H as [H | [t H]].
      * unfold Authenticator.normalize_expires_at. now rewrite H.
      * eapply normalize_of_Date; eassumption.
    + unfold Authenticator.after_cache_check. cbv zeta. rewrite HT.
      destruct H as [H | [t H]].
      * now rewrite H.
      * rewrite (normalize_of_Date _ _ H), (write_through_same _ _ _ Htok).
        rewrite H. simpl. unfold Authenticator.has_expired in Hexp.
        rewrite H in Hexp. simpl in Hexp. now rewrite Hexp.
  - intros Hexp force. rewrite !authenticate_eq. cbv zeta.
    rewrite HT, Hexp, !orb_true_r, andb_false_r.
    split; [reflexivity | apply open_surface_not_resolved].
Qed.


(** *** Redirect mode *)

(** In [Redirect] mode a registered provider whose cache check does not
    answer gets a promise rejected with the arrow function itself; nobody
    calls it, so the state is the one the cache check left. *)
Lemma authenticate_redirect (h : Host) (provider : string) (endpoint : Endpoint.t)
    (force : bool) (st : State) :
  endpoints st !! provider = Some endpoint ->
  mode st = Redirect ->
  is_nullish (tokens_get st provider) = true ->
  authenticate h provider force st =
    (Rejected (VFun (RedirectArrow endpoint provider)), st).
Proof.
  intros Hep Hm Hnull. rewrite authenticate_eq. cbv zeta. rewrite Hnull. simpl.
  assert (Hst : after_cache_check (now h) provider st = st).
  { unfold Authenticator.after_cache_check. cbv zeta.
    destruct (tokens_get st provider); try discriminate; reflexivity. }
  rewrite Hst. now apply open_surface_redirect.
Qed.

(** *** The code exchange *)

(** C4, as the code has it.  With a token URL configured the request is
    sent and the promise waits for the response.  Every load event settles
    it: a status other than 200 rejects with an error that wraps the
    response body; on 200, a body that does not parse rejects with an
    error that wraps the exception, an object with [access_token] is
    stored under the endpoint's provider name and resolved with, an object
    or array without it is the rejection reason as it is, and a primitive
    (null, a number, a string, a boolean) rejects with an error that wraps
    the exception of the [in] test. *)
Theorem exchange_outcomes (provider : string) (endpoint : Endpoint.t)
    (tokenUrl : string) (data : value) (headers : list (string * string))
    (st : State) :
  endpoints st !! provider = Some endpoint ->
  Endpoint.tokenUrl endpoint = Some tokenUrl ->
  let sent := exchangeCodeForToken provider data headers st in
  fst sent = AwaitingResponse endpoint /\
  tokens (snd sent) = tokens st /\
  (forall (st1 : State) (status : Z) (responseText : string),
     let r := deliver (XhrLoad status responseText) (fst sent) st1 in
     is_settled (fst r) = true /\
     (status <> 200 ->
      r = (Rejected (IError (VStr ("Request failed. " ++ responseText))), st1)) /\
     (status = 200 ->
      (forall e, JSON_parse responseText = Throw e -> r = (Rejected (IError e), st1)) /\
      (forall fields, JSON_parse responseText = Normal (VObj fields) ->
         (is_Some (assoc "access_token" fields) ->
          fst r = Resolved (VObj fields) /\
          tokens (snd r) = <[Endpoint.provider endpoint := VObj fields]> (tokens st1) /\
          tokens (snd r) !! Endpoint.provider endpoint = Some (VObj fields) /\
          log (snd r) = log st1) /\
         (assoc "access_token" fields = None -> r = (Rejected (VObj fields), st1))) /\
      (forall xs, JSON_parse responseText = Normal (VArr xs) ->
         r = (Rejected (VArr xs), st1)) /\
      (forall json, JSON_parse responseText = Normal json -> is_primitive json = true ->
         exists msg, r = (Rejected (IError (VError TypeError msg)), st1)))).
Proof.
  intros Hep Hurl sent. subst sent.
  unfold Authenticator.exchangeCodeForToken, endpoints_get. rewrite Hep, Hurl. simpl.
  split; [reflexivity|]. split; [reflexivity|].
  intros st1 status responseText. unfold Authenticator.onload.
  destruct (status =? 200) eqn:Hs.
  - apply Z.eqb_eq in Hs. split; [|split; [intros Hne; contradiction|]].
    + destruct (JSON_parse responseText) as [json|e]; [|reflexivity].
      destruct (js_in "access_token" json) as [[|]|e]; reflexivity.
    + intros _. split; [|split; [|split]].
      * intros e He. now rewrite He.
      * intros fields Hp. rewrite Hp. simpl. split.
        -- intros Hsome. rewrite bool_decide_eq_true_2 by assumption. simpl.
           repeat split. apply lookup_insert_eq.
        -- intros Hnone. rewrite bool_decide_eq_false_2; [reflexivity|].
           rewrite Hnone. intros [? ?]. discriminate.
      * intros xs Hp. now rewrite Hp.
      * intros json Hp Hprim. rewrite Hp.
        destruct json; try discriminate; simpl; eexists; reflexivity.
  - apply Z.eqb_neq in Hs. split; [reflexivity|]. split; [reflexivity|].
    intros Heq. contradiction.
Qed.

(** *** The popup *)

(** When the polling test's read of the popup's document URL throws, the
    catch clause looks at the window handle only, which is what
    [window.open] returned and is never assigned again: with a null handle
    the interval is cleared and the promise rejects with an error that
    wraps the exception; with a window the exception is swallowed and
    nothing is done, whatever has become of the popup. *)
Lemma poll_when_inspection_throws (endpoint : Endpoint.t) (popupWindow : bool)
    (t : Tick) (exception : value) (st : State) :
  Authenticator.document_URL popupWindow (first t) = Throw exception ->
  poll endpoint popupWindow t st =
    if popupWindow then (Polling endpoint popupWindow, st)
    else (Rejected (IError exception), emit [ClearInterval] st).
Proof.
  intros H. unfold Authenticator.poll. cbv zeta. rewrite H.
  unfold Authenticator.poll_catch. now destruct popupWindow.
Qed.


(** *** Surfaces *)

Lemma surfaces_opened_app (a b : list Event) :
  surfaces_opened (a ++ b) = (surfaces_opened a + surfaces_opened b)%nat.
Proof. unfold surfaces_opened. now rewrite List.filter_app, length_app. Qed.

Lemma surface_after_app (a b : list Event) (live : bool) :
  surface_after (a ++ b) live = surface_after b (surface_after a live).
Proof. apply fold_left_app. Qed.

Lemma interval_after_app (a b : list Event) (armed : bool) :
  interval_after (a ++ b) armed = interval_after b (interval_after a armed).
Proof. apply fold_left_app. Qed.

Lemma warnings_are_quiet (es : list Event) :
  forallb is_warning es = true ->
  surfaces_opened es = 0%nat /\
  (forall live, surface_after es live = live) /\
  (forall armed, interval_after es armed = armed).
Proof.
  induction es as [|e es IH]; simpl; [auto|].
  intros H. apply andb_true_iff in H as [He Hes].
  destruct e; try discriminate. destruct (IH Hes) as (H1 & H2 & H3).
  repeat split; auto.
Qed.

Ltac tidy_up :=
  unfold tidy, surface_live, interval_armed in *;
  rewrite ?surfaces_opened_app, ?surface_after_app, ?interval_after_app;
  unfold surfaces_opened in *;
  simpl; repeat split; try congruence; try lia.

Ltac advance :=
  unfold advances; simpl log; simpl fst;
  first [ exists []; split; [now rewrite app_nil_r | rewrite app_nil_r]
        | rewrite <- ?app_assoc; eexists; split; [reflexivity|] ];
  tidy_up.

Lemma exchange_advances (provider : string) (data : value) (st : State)
    (evs : list Event) :
  tidy (Rejected data) evs ->
  advances st evs (exchangeCodeForToken provider data [] st).
Proof.
  intros (Hn & Hl & Hi). unfold Authenticator.exchangeCodeForToken.
  destruct (endpoints_get st provider) as [endpoint|]; [|advance; tidy_up].
  destruct (Endpoint.tokenUrl endpoint); advance; tidy_up.
Qed.

Lemma classify_advances (endpoint : Endpoint.t) (result : value)
    (catch : value -> Promise * State) (st : State) (evs : list Event) :
  tidy (Rejected result) evs ->
  (forall e, advances st evs (catch e)) ->
  advances st evs (Authenticator.classify JSON_stringify endpoint result catch st).
Proof.
  intros Ht Hcatch. unfold Authenticator.classify.
  destruct (js_in "code" result) as [[|]|e]; [| |apply Hcatch].
  - now apply exchange_advances.
  - destruct Ht as (Hn & Hl & Hi).
    destruct (js_in "access_token" result) as [[|]|e]; [| |apply Hcatch]; advance.
Qed.


Lemma advances_after_emit (es0 : list Event) (st : State) (evs : list Event)
    (r : Promise * State) :
  advances (emit es0 st) (evs ++ es0) r -> advances st evs r.
Proof.
  intros (es & Hlog & Ht). exists (es0 ++ es)%list. simpl in Hlog.
  rewrite <- app_assoc in Hlog. rewrite <- app_assoc in Ht. auto.
Qed.

Lemma advances_nothing (p : Promise) (st : State) (evs : list Event) :
  tidy p evs -> advances st evs (p, st).
Proof. intros Ht. exists []. simpl. now rewrite !app_nil_r. Qed.

Lemma poll_advances (endpoint : Endpoint.t) (popupWindow : bool) (t : Tick)
    (st : State) (evs : list Event) :
  tidy (Polling endpoint popupWindow) evs ->
  advances st evs (poll endpoint popupWindow t st).
Proof.
  intros Ht. unfold Authenticator.poll, Authenticator.document_URL. cbv zeta.
  destruct popupWindow.
  - destruct (first t) as [URL|exception]; [|now apply advances_nothing].
    destruct (includes (Endpoint.redirectUrl endpoint) URL); [|now apply advances_nothing].
    apply (advances_after_emit [ClearInterval; PopupClose]).
    destruct Ht as [Hn Hl].
    assert (Hclosed : forall v, tidy (Rejected v) (evs ++ [ClearInterval; PopupClose]))
      by (intros v; tidy_up).
    destruct (second t) as [URL'|exception]; [|apply advances_nothing; tidy_up].
    destruct (is_nullish (getToken URL' (Endpoint.redirectUrl endpoint))).
    + apply advances_nothing, Hclosed.
    + apply classify_advances; [apply Hclosed|].
      intros e. apply advances_nothing. tidy_up.
  - destruct Ht as [Hn Hl]. unfold Authenticator.poll_catch. advance.
Qed.

Lemma on_message_advances (endpoint : Endpoint.t) (message : option string)
    (st : State) (evs : list Event) :
  tidy (DialogListening endpoint) evs ->
  advances st evs (Authenticator.on_message JSON_parse JSON_stringify endpoint message st).
Proof.
  intros [Hn Hi]. unfold Authenticator.on_message. cbv zeta.
  apply (advances_after_emit [DialogClose]).
  assert (Hclosed : forall v, tidy (Rejected v) (evs ++ [DialogClose]))
    by (intros v; tidy_up).
  destruct message as [message|]; [|apply advances_nothing, Hclosed].
  destruct (String.eqb message EmptyString); [apply advances_nothing, Hclosed|].
  destruct (JSON_parse message) as [json|exception]; [|apply advances_nothing, Hclosed].
  apply classify_advances; [apply Hclosed|].
  intros e. apply advances_nothing, Hclosed.
Qed.

Lemma deliver_advances (cb : Callback) (p : Promise) (st : State) (evs : list Event) :
  tidy p evs -> advances st evs (deliver cb p st).
Proof.
  intros Ht.
  destruct p, cb; simpl; try (now apply advances_nothing).
  - now apply poll_advances.
  - unfold Authenticator.on_dialog. destruct Ht as [Hn Hi]. destruct dialog; advance.
  - now apply on_message_advances.
  - unfold Authenticator.onload. destruct Ht as (Hn & Hl & Hi).
    destruct (status =? 200); [|advance].
    destruct (JSON_parse responseText) as [json|e]; [|advance].
    destruct (js_in "access_token" json) as [[|]|e]; advance.
Qed.

Lemma run_advances (cbs : list Callback) :
  forall (p : Promise) (st : State) (evs : list Event),
    tidy p evs -> advances st evs (run cbs p st).
Proof.
  induction cbs as [|cb cbs IH]; intros p st evs Ht; simpl.
  - now apply advances_nothing.
  - destruct (deliver_advances cb p st evs Ht) as (es & Hlog & Ht').
    destruct (deliver cb p st) as [p' st'] eqn:Hd. simpl in *.
    destruct (IH p' st' _ Ht') as (es' & Hlog' & Ht'').
    exists (es ++ es')%list. rewrite Hlog', Hlog, <- !app_assoc in *. auto.
Qed.

Lemma open_surface_advances (h : Host) (provider : string) (st : State)
    (evs : list Event) :
  forallb is_warning evs = true ->
  advances st evs (open_surface h provider st).
Proof.
  intros Hw. destruct (warnings_are_quiet evs Hw) as (Hn & Hl & Hi).
  specialize (Hl false). specialize (Hi false).
  unfold Authenticator.open_surface, Authenticator._openInDialog,
    Authenticator._openInWindowPopup. cbv zeta.
  destruct (endpoints_get st provider) as [endpoint|]; [|advance].
  destruct (mode st); [|advance].
  destruct (isAddin h); [advance|].
  destruct (setInterval h), (window_open h); advance.
Qed.

Lemma authenticate_advances (h : Host) (provider : string) (force : bool) (st : State) :
  advances st [] (authenticate h provider force st).
Proof.
  rewrite authenticate_eq. cbv zeta.
  destruct (after_cache_check_frame (now h) provider st) as (_ & _ & es0 & Hlog & Hw & _).
  destruct (negb (is_nullish (tokens_get st provider)) && _).
  - exists es0. simpl. split; [assumption|].
    destruct (warnings_are_quiet es0 Hw) as (Hn & Hl & Hi).
    unfold tidy, surface_live, interval_armed. rewrite Hn, Hl, Hi. auto.
  - destruct (open_surface_advances h provider
                (after_cache_check (now h) provider st) es0 Hw) as (es & Hlog' & Ht).
    exists (es0 ++ es)%list. rewrite Hlog', Hlog, <- app_assoc. auto.
Qed.

(** C6. One call of [authenticate], followed by whatever callbacks the host
    delivers, opens one surface at most; and whenever its promise is
    settled (resolved, rejected, or rejected from the catch clause of the
    polling test) no surface of the call is live and no interval is armed:
    the close and the clear come before the settling. *)
Theorem one_surface_closed_before_settling (h : Host) (provider : string)
    (force : bool) (st : State) (cbs : list Callback) :
  let started := authenticate h provider force st in
  let r := run cbs (fst started) (snd started) in
  exists es,
    log (snd r) = (log st ++ es)%list /\
    (surfaces_opened es <= 1)%nat /\
    (is_settled (fst r) = true ->
     surface_live es = false /\ interval_armed es = false).
Proof.
  cbv zeta.
  destruct (authenticate_advances h provider force st) as (es & Hlog & Ht).
  simpl in Ht.
  destruct (run_advances cbs _ (snd (authenticate h provider force st)) es Ht)
    as (es' & Hlog' & [Hn Hp]).
  exists (es ++ es')%list. rewrite Hlog', Hlog, <- app_assoc.
  split; [reflexivity|]. split; [assumption|].
  destruct (fst (run cbs _ _)); simpl; try discriminate; auto.
Qed.

End Properties.

(** ** Runs on the sample host *)

Lemma isTokenUrl_iff_marker_anywhere_witness :
  isTokenUrl "https://contoso.com/barcode/index.html" = true /\
  Sample.isAuthDialog true "https://contoso.com/barcode/index.html"
    "https://contoso.com" = (true, [MessageParent "null"]).
Proof.
  assert (Hocc : occurs_ignoring_case "code" "https://contoso.com/barcode/index.html").
  { exists "https://contoso.com/bar", "code", "/index.html". split; reflexivity. }
  destruct (isTokenUrl_iff_marker_anywhere Sample.getToken Sample.JSON_stringify
              "https://contoso.com/barcode/index.html" "https://contoso.com")
    as [Hiff Hdialog].
  split.
  - apply Hiff. right. left. exact Hocc.
  - apply Hdialog. left. exact Hocc.
Defined.

Lemma exchange_without_tokenUrl_resolves_with_data_witness :
  let r := Sample.exchangeCodeForToken "Fabrikam" (VObj [("code", VStr "abc")]) []
             (Sample.fresh Dialog) in
  fst r = Resolved (VObj [("code", VStr "abc")]) /\
  tokens (snd r) = tokens (Sample.fresh Dialog) /\
  exists es, log (snd r) = (log (Sample.fresh Dialog) ++ es)%list /\ existsb is_xhr es = false.
Proof.
  apply (exchange_without_tokenUrl_resolves_with_data Sample.JSON_stringify
           "Fabrikam" Sample.fabrikam); reflexivity.
Defined.

Lemma exchange_unregistered_rejects_with_TypeError_witness :
  let r := Sample.exchangeCodeForToken "Woodgrove" (VObj [("code", VStr "abc")]) []
             (Sample.fresh Dialog) in
  (exists msg, fst r = Rejected (VError TypeError msg)) /\
  (forall e, fst r <> Rejected (IError e)) /\
  snd r = Sample.fresh Dialog.
Proof.
  apply (exchange_unregistered_rejects_with_TypeError Sample.JSON_stringify).
  reflexivity.
Defined.

Lemma authenticate_without_expires_at_resolves_witness :
  Sample.authenticate (Sample.browser 99999999) "Woodgrove" false
    (Sample.orphan Sample.bare) = (Resolved Sample.bare, Sample.orphan Sample.bare).
Proof.
  apply (authenticate_without_expires_at_resolves Sample.getLoginUrl Sample.new_Date);
    reflexivity.
Defined.

(** C1, as stated, fails: a store may hold a token for a provider that was
    never registered, and [authenticate] then resolves with it. *)
Lemma authenticate_unregistered_counterexample :
  endpoints (Sample.orphan Sample.cached) !! "Woodgrove" = None /\
  fst (Sample.authenticate (Sample.browser 1000) "Woodgrove" false
         (Sample.orphan Sample.cached)) =
    Resolved (VObj [("access_token", VStr "tok123"); ("expires_at", VDate (Some 5000))]).
Proof. split; reflexivity. Qed.

Lemma authenticate_unregistered_witness :
  fst (Sample.authenticate (Sample.browser 9000) "Woodgrove" false
         (Sample.orphan Sample.cached)) =
    Rejected (IError (VStr "No such registered endpoint: Woodgrove could be found.")).
Proof.
  pose proof (authenticate_unregistered Sample.getLoginUrl Sample.new_Date
                (Sample.browser 9000) "Woodgrove" false (Sample.orphan Sample.cached)
                eq_refl) as (_ & Hreject & _).
  apply Hreject. right. right. reflexivity.
Defined.

Lemma authenticate_cache_check_witness :
  fst (Sample.authenticate (Sample.browser 1000) "Contoso" false
         (Sample.returning Sample.cached)) =
    Resolved (VObj [("access_token", VStr "tok123"); ("expires_at", VDate (Some 5000))]) /\
  Sample.authenticate (Sample.browser 9000) "Contoso" false
    (Sample.returning Sample.cached) =
  Sample.authenticate (Sample.browser 9000) "Contoso" true
    (Sample.returning Sample.cached).
Proof.
  split.
  - pose proof (authenticate_cache_check Sample.getLoginUrl Sample.new_Date
                  (Sample.browser 1000) "Contoso" Sample.cached
                  (Sample.returning Sample.cached) eq_refl eq_refl) as [Hfresh _].
    exact (proj1 (Hfresh eq_refl)).
  - pose proof (authenticate_cache_check Sample.getLoginUrl Sample.new_Date
                  (Sample.browser 9000) "Contoso" Sample.cached
                  (Sample.returning Sample.cached) eq_refl eq_refl) as [_ Hstale].
    exact (proj1 (Hstale eq_refl false)).
Defined.

(** C3 on the code: in [Redirect] mode the promise is rejected with the
    arrow function, which is never called.  The reason is not an error
    payload and nothing was done to the page's location; the redirect and
    the "Redirecting to endpoint" payload exist only as what the function
    would do and return if it were called. *)
Theorem authenticate_redirect_leaves_arrow_uncalled :
  let st := Sample.fresh Redirect in
  let r := Sample.authenticate (Sample.browser 0) "Contoso" false st in
  fst r = Rejected (VFun (RedirectArrow Sample.contoso "Contoso")) /\
  (forall e, fst r <> Rejected (IError e)) /\
  existsb navigates (log (snd r)) = false /\
  Authenticator.call Sample.getLoginUrl (RedirectArrow Sample.contoso "Contoso") st =
    (IError (VStr "Redirecting to endpoint: Contoso"),
     emit [LocationReplace (Sample.getLoginUrl Sample.contoso)] st).
Proof.
  cbv zeta.
  rewrite (authenticate_redirect Sample.getLoginUrl Sample.new_Date
             (Sample.browser 0) "Contoso" Sample.contoso false (Sample.fresh Redirect)
             eq_refl eq_refl eq_refl
           : Sample.authenticate _ _ _ _ = _).
  simpl. repeat split. discriminate.
Qed.

(** C4, as stated, fails twice: a transport fault leaves the promise
    pending, and a 200 response whose body is the JSON [null] is not
    rejected with that JSON. *)
Lemma exchange_outcomes_counterexample :
  let sent := Sample.exchangeCodeForToken "Contoso" (VObj [("code", VStr "abc")]) []
                (Sample.fresh Dialog) in
  fst sent = AwaitingResponse Sample.contoso /\
  is_settled (fst (Sample.deliver XhrFault (fst sent) (snd sent))) = false /\
  Sample.JSON_parse "null" = Normal VNull /\
  fst (Sample.deliver (XhrLoad 200 "null") (fst sent) (snd sent)) <> Rejected VNull.
Proof. cbv zeta. repeat split. simpl. discriminate. Qed.

Lemma exchange_outcomes_witness :
  let sent := Sample.exchangeCodeForToken "Contoso" (VObj [("code", VStr "abc")]) []
                (Sample.fresh Dialog) in
  let r := Sample.deliver (XhrLoad 200 Sample.token_body) (fst sent) (snd sent) in
  fst r = Resolved (VObj [("access_token", VStr "tok123"); ("expires_in", VNum 3600)]) /\
  tokens (snd r) !! "Contoso" =
    Some (VObj [("access_token", VStr "tok123"); ("expires_in", VNum 3600)]).
Proof.
  cbv zeta.
  pose proof (exchange_outcomes Sample.getToken Sample.JSON_parse Sample.JSON_stringify
                "Contoso" Sample.contoso "https://app.contoso.com/token"
                (VObj [("code", VStr "abc")]) [] (Sample.fresh Dialog)
                eq_refl eq_refl) as (_ & _ & Hload).
  destruct (Hload (snd (Sample.exchangeCodeForToken "Contoso"
                          (VObj [("code", VStr "abc")]) [] (Sample.fresh Dialog)))
                  200 Sample.token_body) as (_ & _ & H200).
  destruct (H200 eq_refl) as (_ & Hobj & _).
  destruct (Hobj [("access_token", VStr "tok123"); ("expires_in", VNum 3600)] eq_refl)
    as [Hstore _].
  destruct (Hstore (ex_intro _ (VStr "tok123") eq_refl)) as (Hres & _ & Hlook & _).
  split; [exact Hres | exact Hlook].
Defined.

(** With a window in hand, any number of ticks whose read of the document
    URL throws leaves the promise polling and the state untouched. *)
Lemma throwing_ticks_keep_polling (getToken : string -> string -> value)
    (JSON_parse : string -> completion value) (JSON_stringify : value -> string)
    (endpoint : Endpoint.t) (ticks : list Tick) (st : State) :
  Forall (fun t => exists exception, first t = Throw exception) ticks ->
  Authenticator.run getToken JSON_parse JSON_stringify
    (map IntervalTick ticks) (Polling endpoint true) st =
  (Polling endpoint true, st).
Proof.
  induction 1 as [|t ticks [exception Ht] _ IH]; [reflexivity|].
  simpl.
  rewrite (poll_when_inspection_throws getToken JSON_stringify endpoint true t
             exception st Ht).
  exact IH.
Qed.

(** C7 on the code: a popup that the user has closed is polled for ever.
    The catch clause of the interval callback tests the window handle,
    which stays the window that [window.open] returned, so ticks whose read
    of the document URL throws leave everything as it was: the promise is
    not rejected and the interval stays armed.  And a throw of the second
    read, after the callback has cleared the interval and closed the
    popup, is swallowed by the same clause: no tick follows and the promise
    is pending for good. *)
Theorem closed_popup_is_polled_for_ever :
  let started := Sample.authenticate (Sample.browser 0) "Contoso" false
                   (Sample.fresh Dialog) in
  let denied := Throw (VError OtherError "Permission denied") in
  let gone := mkTick true denied denied in
  let r := Sample.run [IntervalTick gone; IntervalTick gone; IntervalTick gone;
                       IntervalTick gone; IntervalTick gone]
             (fst started) (snd started) in
  closed gone = true /\
  fst started = Polling Sample.contoso true /\
  r = started /\
  is_settled (fst r) = false /\
  interval_armed (log (snd r)) = true /\
  Sample.poll Sample.contoso true
    (mkTick false (Normal "https://app.contoso.com/auth#code=abc") denied)
    (snd started) =
  (Stalled, emit [ClearInterval; PopupClose] (snd started)).
Proof. cbv zeta. repeat split. Qed.

(** ** Whole runs *)

(** A popup that reaches the redirect URL with an error in its fragment is
    closed, and the promise rejects with the error payload. *)
Example popup_access_denied :
  let started := Sample.authenticate (Sample.browser 0) "Contoso" false
                   (Sample.fresh Dialog) in
  let url := "https://app.contoso.com/auth#error=access_denied" in
  let r := Sample.run [IntervalTick (mkTick false (Throw VNull) (Throw VNull));
                       IntervalTick (mkTick false (Normal url) (Normal url))]
             (fst started) (snd started) in
  fst r = Rejected (VObj [("error", VStr "access_denied")]) /\
  surfaces_opened (log (snd r)) = 1%nat /\
  surface_live (log (snd r)) = false /\
  interval_armed (log (snd r)) = false.
Proof. cbv zeta. repeat split. Qed.

(** A popup that hands back a code: the code is exchanged, and the token of
    the response is stored and resolved with. *)
Example popup_code_exchange :
  let started := Sample.authenticate (Sample.browser 0) "Contoso" false
                   (Sample.fresh Dialog) in
  let url := "https://app.contoso.com/auth?code=abc" in
  let r := Sample.run [IntervalTick (mkTick false (Normal url) (Normal url));
                       XhrLoad 200 Sample.token_body]
             (fst started) (snd started) in
  fst r = Resolved (VObj [("access_token", VStr "tok123"); ("expires_in", VNum 3600)]) /\
  tokens (snd r) !! "Contoso" =
    Some (VObj [("access_token", VStr "tok123"); ("expires_in", VNum 3600)]) /\
  surface_live (log (snd r)) = false.
Proof. cbv zeta. repeat split. Qed.

(** A response with status 401 rejects with an error that wraps the body. *)
Example exchange_invalid_grant :
  let sent := Sample.exchangeCodeForToken "Contoso" (VObj [("code", VStr "abc")]) []
                (Sample.fresh Dialog) in
  fst (Sample.deliver (XhrLoad 401 Sample.error_body) (fst sent) (snd sent)) =
    Rejected (IError (VStr ("Request failed. " ++ Sample.error_body))).
Proof. reflexivity. Qed.

(** In an add-in the dialog is closed by the message that settles the
    promise. *)
Example dialog_message_closes :
  let started := Sample.authenticate (Sample.addin 0) "Contoso" false
                   (Sample.fresh Dialog) in
  let r := Sample.run [DialogCallback true; DialogMessageReceived None]
             (fst started) (snd started) in
  fst r = Rejected no_token_parsed /\
  surface_live (log (snd r)) = false.
Proof. cbv zeta. repeat split. Qed.

(** The caller's headers cannot replace [Accept] and [Content-Type]. *)
Example caller_headers_filtered :
  Authenticator.set_headers
    [("Accept", "text/plain"); ("X-Trace", "1"); ("Content-Type", "text/xml")] =
  [XhrSetRequestHeader "X-Trace" "1"].
Proof. reflexivity. Qed.

(** While the popup sits on the provider's pages the reads of its URL throw:
    the promise keeps polling and the surface stays open. *)
Example popup_live_while_polling :
  let started := Sample.authenticate (Sample.browser 0) "Contoso" false
                   (Sample.fresh Dialog) in
  let denied := Throw (VError OtherError "Permission denied") in
  let r := Sample.run [IntervalTick (mkTick false denied denied);
                       IntervalTick (mkTick true denied denied)]
             (fst started) (snd started) in
  fst r = Polling Sample.contoso true /\
  surface_live (log (snd r)) = true /\
  interval_armed (log (snd r)) = true.
Proof. cbv zeta. repeat split. Qed.

(** * Further properties of the code *)

Section MoreProperties.

#[local] Set Default Proof Using "Type".

Variable getLoginUrl : Endpoint.t -> string.
Variable getToken : string -> string -> value.
Variable JSON_parse : string -> completion value.
Variable JSON_stringify : value -> string.
Variable new_Date : value -> timeval.

#[local] Abbreviation authenticate := (Authenticator.authenticate getLoginUrl new_Date).
#[local] Abbreviation exchangeCodeForToken := (Authenticator.exchangeCodeForToken JSON_stringify).
#[local] Abbreviation isAuthDialog := (Authenticator.isAuthDialog getToken JSON_stringify).
#[local] Abbreviation poll := (Authenticator.poll getToken JSON_stringify).
#[local] Abbreviation deliver := (Authenticator.deliver getToken JSON_parse JSON_stringify).
#[local] Abbreviation run := (Authenticator.run getToken JSON_parse JSON_stringify).
#[local] Abbreviation has_expired := (Authenticator.has_expired new_Date).
#[local] Abbreviation normalize_expires_at := (Authenticator.normalize_expires_at new_Date).
#[local] Abbreviation after_cache_check := (Authenticator.after_cache_check new_Date).
#[local] Abbreviation open_surface := (Authenticator.open_surface getLoginUrl).
#[local] Abbreviation as_Date := (Authenticator.as_Date new_Date).

(** ** The cache check and the store *)

Lemma open_surface_keeps_store (h : Host) (provider : string) (st : State) :
  tokens (snd (open_surface h provider st)) = tokens st /\
  endpoints (snd (open_surface h provider st)) = endpoints st /\
  mode (snd (open_surface h provider st)) = mode st.
Proof.
  unfold Authenticator.open_surface, Authenticator._openInDialog,
    Authenticator._openInWindowPopup. cbv zeta.
  destruct (endpoints_get st provider); [|auto].
  destruct (mode st) eqn:Hm; [|simpl; auto].
  destruct (isAddin h); [simpl; auto|].
  destruct (setInterval h), (window_open h); simpl; auto.
Qed.

Lemma normalize_of_nullish (token : value) :
  is_nullish (get_prop token "expires_at") = true ->
  normalize_expires_at token = token.
Proof. intros H. unfold Authenticator.normalize_expires_at. now rewrite H. Qed.

Lemma after_cache_check_store (now : Z) (provider : string) (st : State) :
  tokens (after_cache_check now provider st) =
  alter normalize_expires_at provider (tokens st).
Proof.
  unfold Authenticator.after_cache_check. cbv zeta.
  destruct (is_nullish (get_prop (tokens_get st provider) "expires_at")) eqn:Hexp.
  - apply map_eq. intros q. rewrite lookup_alter. case_decide; [subst q|reflexivity].
    unfold tokens_get in Hexp. destruct (tokens st !! provider) as [T|]; [|reflexivity].
    simpl in *. now rewrite normalize_of_nullish.
  - assert (Hsome : tokens st !! provider = Some (tokens_get st provider)).
    { unfold tokens_get in *. destruct (tokens st !! provider); [reflexivity|].
      simpl in Hexp. discriminate. }
    assert (Hw : tokens (write_through provider
                           (normalize_expires_at (tokens_get st provider)) st) =
                 alter normalize_expires_at provider (tokens st)).
    { simpl. apply map_eq. intros q. rewrite lookup_alter, lookup_insert.
      case_decide; [subst q; now rewrite Hsome | reflexivity]. }
    destruct (before _ now); simpl; exact Hw.
Qed.

(** X1. What [authenticate] itself does to the store: the token of the
    provider, if there is one, has its [expires_at] made a [Date]; no token
    is added, removed or replaced, and the registry and the mode are as
    they were. *)
Theorem authenticate_store_effect (h : Host) (provider : string) (force : bool)
    (st : State) :
  let r := authenticate h provider force st in
  tokens (snd r) = alter normalize_expires_at provider (tokens st) /\
  endpoints (snd r) = endpoints st /\
  mode (snd r) = mode st.
Proof.
  cbv zeta. rewrite authenticate_eq. cbv zeta.
  destruct (after_cache_check_frame new_Date (now h) provider st) as (He & Hm & _).
  pose proof (after_cache_check_store (now h) provider st) as Ht.
  destruct (negb (is_nullish (tokens_get st provider)) && _); simpl.
  - auto.
  - destruct (open_surface_keeps_store h provider (after_cache_check (now h) provider st))
      as (Ht' & He' & Hm').
    rewrite Ht', He', Hm'. auto.
Qed.

(** X2. [force] bypasses the cache: with [force = true] the promise is
    never resolved by [authenticate] itself, whatever the store holds. *)
Theorem authenticate_force_never_resolves (h : Host) (provider : string)
    (st : State) (v : value) :
  fst (authenticate h provider true st) <> Resolved v.
Proof.
  rewrite authenticate_eq. cbv zeta. simpl. rewrite andb_false_r.
  apply open_surface_not_resolved.
Qed.

(** X3. A cached token whose [expires_at] is not null but gives an invalid
    date (a NaN time value) is never taken for expired: without [force],
    [authenticate] resolves with it at every time. *)
Theorem authenticate_invalid_date_resolves (h : Host) (provider : string)
    (T : value) (st : State) :
  tokens st !! provider = Some T ->
  is_nullish (get_prop T "expires_at") = false ->
  as_Date (get_prop T "expires_at") = None ->
  fst (authenticate h provider false st) = Resolved (normalize_expires_at T) /\
  get_prop (normalize_expires_at T) "expires_at" = VDate None.
Proof.
  intros Htok Hexp Hnan.
  assert (HT : tokens_get st provider = T) by (unfold tokens_get; now rewrite Htok).
  destruct (is_nullish_get_prop _ _ Hexp) as [fields ->].
  rewrite authenticate_eq. cbv zeta. rewrite HT.
  unfold Authenticator.has_expired. rewrite Hexp, Hnan. simpl. split; [reflexivity|].
  unfold Authenticator.normalize_expires_at. rewrite Hexp, Hnan. simpl.
  now rewrite assoc_assign_eq.
Qed.

Lemma has_expired_mono (now now' : Z) (T : value) :
  now <= now' -> has_expired now T = true -> has_expired now' T = true.
Proof.
  unfold Authenticator.has_expired. intros Hle H.
  apply andb_true_iff in H as [H1 H2]. rewrite H1. simpl.
  unfold before in *. destruct (as_Date (get_prop T "expires_at")); [|discriminate].
  apply Z.ltb_lt in H2. apply Z.ltb_lt. lia.
Qed.

(** X4. Cache hits are closed under going back in time: if the call
    without [force] resolves at some time, the same call at any earlier
    time resolves with the same token. *)
Theorem authenticate_resolves_earlier (h h' : Host) (provider : string)
    (st : State) (v : value) :
  now h <= now h' ->
  fst (authenticate h' provider false st) = Resolved v ->
  fst (authenticate h provider false st) = Resolved v.
Proof.
  intros Hle. rewrite !authenticate_eq. cbv zeta. simpl.
  destruct (is_nullish (tokens_get st provider)); simpl.
  - intros H. now apply open_surface_not_resolved in H.
  - destruct (has_expired (now h') (tokens_get st provider)) eqn:He'; simpl.
    + intros H. now apply open_surface_not_resolved in H.
    + destruct (has_expired (now h) (tokens_get st provider)) eqn:He; simpl; [|auto].
      rewrite (has_expired_mono _ _ _ Hle He) in He'. discriminate.
Qed.

Lemma normalize_idempotent (T : value) :
  normalize_expires_at (normalize_expires_at T) = normalize_expires_at T.
Proof.
  destruct (is_nullish (get_prop T "expires_at")) eqn:Hexp.
  - rewrite (normalize_of_nullish _ Hexp). now apply normalize_of_nullish.
  - destruct (is_nullish_get_prop _ _ Hexp) as [fields ->].
    apply (normalize_of_Date new_Date _ (as_Date (get_prop (VObj fields) "expires_at"))).
    unfold Authenticator.normalize_expires_at. rewrite Hexp. simpl.
    now rewrite assoc_assign_eq.
Qed.

Lemma has_expired_normalize (now : Z) (T : value) :
  has_expired now (normalize_expires_at T) = has_expired now T.
Proof.
  unfold Authenticator.has_expired. rewrite normalize_same_instant. f_equal.
  unfold Authenticator.normalize_expires_at.
  destruct (is_nullish (get_prop T "expires_at")) eqn:Hexp; [now rewrite Hexp|].
  destruct (is_nullish_get_prop _ _ Hexp) as [fields ->]. simpl.
  now rewrite assoc_assign_eq.
Qed.

Lemma is_nullish_normalize (T : value) :
  is_nullish (normalize_expires_at T) = is_nullish T.
Proof.
  unfold Authenticator.normalize_expires_at.
  destruct (is_nullish (get_prop T "expires_at")) eqn:Hexp; [reflexivity|].
  now destruct (is_nullish_get_prop _ _ Hexp) as [fields ->].
Qed.

Lemma after_cache_check_settled (now : Z) (provider : string) (T : value) (st : State) :
  tokens st !! provider = Some (normalize_expires_at T) ->
  has_expired now T = false ->
  after_cache_check now provider st = st.
Proof.
  intros Htok Hexp. unfold Authenticator.after_cache_check. cbv zeta.
  assert (HT : tokens_get st provider = normalize_expires_at T)
    by (unfold tokens_get; now rewrite Htok).
  rewrite HT, normalize_idempotent, (write_through_same _ _ _ Htok).
  destruct (is_nullish (get_prop (normalize_expires_at T) "expires_at")) eqn:Hn;
    [reflexivity|].
  rewrite <- has_expired_normalize in Hexp. unfold Authenticator.has_expired in Hexp.
  rewrite Hn in Hexp. simpl in Hexp. now rewrite Hexp.
Qed.

(** X5. A cache hit repeats: after [authenticate] has resolved from the
    cache, the same call at any time at which the token has not expired
    resolves with the same token and changes nothing, neither in the store
    nor in the log. *)
Theorem authenticate_cache_hit_repeats (h h' : Host) (provider : string)
    (T : value) (st : State) :
  tokens st !! provider = Some T ->
  is_nullish T = false ->
  has_expired (now h) T = false ->
  has_expired (now h') T = false ->
  let r := authenticate h provider false st in
  authenticate h' provider false (snd r) = (fst r, snd r).
Proof.
  intros Htok Hnn Hexp Hexp'. cbv zeta.
  assert (HT : tokens_get st provider = T) by (unfold tokens_get; now rewrite Htok).
  assert (Hr : authenticate h provider false st =
               (Resolved (normalize_expires_at T), after_cache_check (now h) provider st)).
  { rewrite authenticate_eq. cbv zeta. now rewrite HT, Hnn, Hexp. }
  rewrite Hr. simpl.
  assert (Htok' : tokens (after_cache_check (now h) provider st) !! provider =
                  Some (normalize_expires_at T)).
  { rewrite after_cache_check_store, lookup_alter. case_decide; [|congruence].
    now rewrite Htok. }
  rewrite authenticate_eq. cbv zeta.
  assert (HT' : tokens_get (after_cache_check (now h) provider st) provider =
                normalize_expires_at T) by (unfold tokens_get; now rewrite Htok').
  rewrite HT', is_nullish_normalize, Hnn, has_expired_normalize, Hexp'. simpl.
  now rewrite normalize_idempotent, (after_cache_check_settled _ _ _ _ Htok' Hexp').
Qed.

(** X6. Round trip through the store: the token of a 200 response, once
    stored by the load handler, is what [authenticate] for the endpoint's
    provider resolves with as long as it has not expired; no surface opens,
    and a token without [expires_at] comes back as the handler resolved
    it, with the state untouched. *)
Theorem exchange_then_authenticate (h : Host) (endpoint : Endpoint.t)
    (responseText : string) (fields : list (string * value)) (st : State) :
  JSON_parse responseText = Normal (VObj fields) ->
  is_Some (assoc "access_token" fields) ->
  has_expired (now h) (VObj fields) = false ->
  let r := deliver (XhrLoad 200 responseText) (AwaitingResponse endpoint) st in
  let r' := authenticate h (Endpoint.provider endpoint) false (snd r) in
  fst r = Resolved (VObj fields) /\
  fst r' = Resolved (normalize_expires_at (VObj fields)) /\
  log (snd r') = log st /\
  (assoc "expires_at" fields = None -> r' = r).
Proof.
  intros Hp Hat Hexp. cbv zeta. simpl. unfold Authenticator.onload. simpl.
  rewrite Hp. simpl. rewrite bool_decide_eq_true_2 by assumption. simpl.
  set (st1 := tokens_add (Endpoint.provider endpoint) (VObj fields) st).
  assert (Htok : tokens st1 !! Endpoint.provider endpoint = Some (VObj fields))
    by apply lookup_insert_eq.
  assert (HT : tokens_get st1 (Endpoint.provider endpoint) = VObj fields)
    by (unfold tokens_get; now rewrite Htok).
  rewrite authenticate_eq. cbv zeta. rewrite HT, Hexp. simpl.
  destruct (after_cache_check_frame new_Date (now h) (Endpoint.provider endpoint) st1)
    as (_ & _ & es & Hlog & _ & Hes).
  rewrite HT in Hes. rewrite (Hes Hexp), app_nil_r in Hlog.
  repeat split; [exact Hlog|].
  intros Hnone.
  assert (Hn : is_nullish (get_prop (VObj fields) "expires_at") = true)
    by (simpl; now rewrite Hnone).
  rewrite (normalize_of_nullish _ Hn). f_equal.
  unfold Authenticator.after_cache_check. cbv zeta. now rewrite HT, Hn.
Qed.


(** ** What a call can change *)

Lemma changes_within_refl (allowed : string -> Prop) (st : State) :
  changes_within allowed st st.
Proof. repeat split. exists []. now rewrite app_nil_r. Qed.

Lemma changes_within_trans (allowed : string -> Prop) (st1 st2 st3 : State) :
  changes_within allowed st1 st2 -> changes_within allowed st2 st3 ->
  changes_within allowed st1 st3.
Proof.
  intros (He & Hm & Ht & es & Hl & Hs) (He' & Hm' & Ht' & es' & Hl' & Hs').
  repeat split; try congruence.
  - intros q Hq. now rewrite Ht', Ht.
  - exists (es ++ es')%list. rewrite Hl', Hl, <- app_assoc, forallb_app, Hs, Hs'. auto.
Qed.

Lemma changes_within_emit (allowed : string -> Prop) (es : list Event) (st : State) :
  forallb stays_on_page es = true -> changes_within allowed st (emit es st).
Proof. intros H. repeat split. exists es. auto. Qed.

Lemma changes_within_add (allowed : string -> Prop) (k : string) (v : value)
    (st : State) :
  allowed k -> changes_within allowed st (tokens_add k v st).
Proof.
  intros Hk. repeat split.
  - intros q Hq. simpl. apply lookup_insert_ne. congruence.
  - exists []. simpl. now rewrite app_nil_r.
Qed.

Lemma set_headers_stay (headers : list (string * string)) :
  forallb stays_on_page (Authenticator.set_headers headers) = true.
Proof.
  induction headers as [|[k v] rest IH]; simpl; [reflexivity|].
  destruct (String.eqb k "Accept" || String.eqb k "Content-Type"); simpl; assumption.
Qed.

Lemma exchange_within (allowed : string -> Prop) (provider : string) (data : value)
    (headers : list (string * string)) (st : State) :
  allowed provider ->
  closed_under_lookup allowed (endpoints st) ->
  pending_within allowed (fst (exchangeCodeForToken provider data headers st)) /\
  changes_within allowed st (snd (exchangeCodeForToken provider data headers st)).
Proof.
  intros Hp Hc. unfold Authenticator.exchangeCodeForToken, endpoints_get.
  destruct (endpoints st !! provider) as [endpoint|] eqn:Hep; simpl.
  - destruct (Endpoint.tokenUrl endpoint); simpl.
    + split; [now apply (Hc provider)|].
      apply changes_within_emit. simpl. rewrite forallb_app, set_headers_stay. reflexivity.
    + split; [exact I|]. now apply changes_within_emit.
  - split; [exact I | apply changes_within_refl].
Qed.

Lemma classify_within (allowed : string -> Prop) (endpoint : Endpoint.t)
    (result : value) (catch : value -> Promise * State) (st : State) :
  allowed (Endpoint.provider endpoint) ->
  closed_under_lookup allowed (endpoints st) ->
  (forall e, pending_within allowed (fst (catch e)) /\
             changes_within allowed st (snd (catch e))) ->
  pending_within allowed (fst (Authenticator.classify JSON_stringify endpoint result catch st)) /\
  changes_within allowed st (snd (Authenticator.classify JSON_stringify endpoint result catch st)).
Proof.
  intros Hp Hc Hcatch. unfold Authenticator.classify.
  destruct (js_in "code" result) as [[|]|e]; [| |apply Hcatch].
  - now apply exchange_within.
  - destruct (js_in "access_token" result) as [[|]|e]; [| |apply Hcatch]; simpl.
    + split; [exact I | now apply changes_within_add].
    + split; [exact I | apply changes_within_refl].
Qed.

Lemma deliver_within (allowed : string -> Prop) (cb : Callback) (p : Promise)
    (st : State) :
  closed_under_lookup allowed (endpoints st) ->
  pending_within allowed p ->
  pending_within allowed (fst (deliver cb p st)) /\
  changes_within allowed st (snd (deliver cb p st)).
Proof.
  intros Hc Hp.
  assert (Hsame : pending_within allowed p /\ changes_within allowed st st)
    by (split; [assumption | apply changes_within_refl]).
  destruct p, cb; simpl; try exact Hsame; simpl in Hp.
  - (* the interval callback *)
    unfold Authenticator.poll, Authenticator.document_URL,
      Authenticator.poll_catch. cbv zeta.
    destruct popupWindow; simpl.
    + destruct (first t) as [URL|exception]; [|exact Hsame].
      destruct (includes (Endpoint.redirectUrl endpoint) URL); [|exact Hsame].
      assert (Hclose : changes_within allowed st (emit [ClearInterval; PopupClose] st))
        by now apply changes_within_emit.
      destruct (second t) as [URL'|exception]; [|split; [exact I | exact Hclose]].
      destruct (is_nullish (getToken URL' (Endpoint.redirectUrl endpoint)));
        [split; [exact I | exact Hclose]|].
      destruct (classify_within allowed endpoint
                  (getToken URL' (Endpoint.redirectUrl endpoint))
                  (fun e => (Stalled, emit [ClearInterval; PopupClose] st))
                  (emit [ClearInterval; PopupClose] st) Hp Hc) as [H1 H2].
      { intros e. split; [exact I | apply changes_within_refl]. }
      split; [exact H1 | exact (changes_within_trans _ _ _ _ Hclose H2)].
    + split; [exact I | now apply changes_within_emit].
  - (* the callback of displayDialogAsync *)
    unfold Authenticator.on_dialog. destruct dialog; simpl.
    + split; [assumption | now apply changes_within_emit].
    + split; [exact I | apply changes_within_refl].
  - (* a message of the dialog *)
    unfold Authenticator.on_message. cbv zeta.
    assert (Hclose : changes_within allowed st (emit [DialogClose] st))
      by now apply changes_within_emit.
    destruct message as [message|]; [|split; [exact I | exact Hclose]].
    destruct (String.eqb message EmptyString); [split; [exact I | exact Hclose]|].
    destruct (JSON_parse message) as [json|exception]; [|split; [exact I | exact Hclose]].
    destruct (classify_within allowed endpoint json
                (fun exception => (Rejected (IError exception), emit [DialogClose] st))
                (emit [DialogClose] st) Hp Hc) as [H1 H2].
    { intros e. split; [exact I | apply changes_within_refl]. }
    split; [exact H1 | exact (changes_within_trans _ _ _ _ Hclose H2)].
  - (* the response of the token endpoint *)
    unfold Authenticator.onload.
    destruct (status =? 200); [|split; [exact I | apply changes_within_refl]].
    destruct (JSON_parse responseText) as [json|e];
      [|split; [exact I | apply changes_within_refl]].
    destruct (js_in "access_token" json) as [[|]|e]; simpl;
      (split; [exact I|]); try apply changes_within_refl.
    now apply changes_within_add.
Qed.

Lemma run_within (allowed : string -> Prop) (cbs : list Callback) :
  forall (p : Promise) (st : State),
    closed_under_lookup allowed (endpoints st) ->
    pending_within allowed p ->
    changes_within allowed st (snd (run cbs p st)).
Proof.
  induction cbs as [|cb cbs IH]; intros p st Hc Hp; simpl.
  - apply changes_within_refl.
  - destruct (deliver_within allowed cb p st Hc Hp) as [Hp' Hch].
    destruct (deliver cb p st) as [p' st'] eqn:Hd. simpl in *.
    eapply changes_within_trans; [exact Hch|].
    apply IH; [|assumption].
    destruct Hch as (He & _). now rewrite He.
Qed.

Lemma authenticate_within (allowed : string -> Prop) (h : Host) (provider : string)
    (force : bool) (st : State) :
  allowed provider ->
  closed_under_lookup allowed (endpoints st) ->
  pending_within allowed (fst (authenticate h provider force st)) /\
  changes_within allowed st (snd (authenticate h provider force st)).
Proof.
  intros Hp Hc. rewrite authenticate_eq. cbv zeta.
  destruct (after_cache_check_frame new_Date (now h) provider st)
    as (He & Hm & es & Hlog & Hw & _).
  assert (Hcache : changes_within allowed st (after_cache_check (now h) provider st)).
  { repeat split; try assumption.
    - intros q Hq. rewrite after_cache_check_store, lookup_alter.
      case_decide; [subst q; contradiction | reflexivity].
    - exists es. split; [assumption|].
      clear -Hw. induction es as [|e es IH]; [reflexivity|].
      simpl in *. apply andb_true_iff in Hw as [H1 H2].
      destruct e; try discriminate. simpl. auto. }
  destruct (negb (is_nullish (tokens_get st provider)) && _); simpl;
    [split; [exact I | exact Hcache]|].
  set (st1 := after_cache_check (now h) provider st) in *.
  assert (Hopen : pending_within allowed (fst (open_surface h provider st1)) /\
                  changes_within allowed st1 (snd (open_surface h provider st1))).
  { unfold Authenticator.open_surface, Authenticator._openInDialog,
      Authenticator._openInWindowPopup, endpoints_get. cbv zeta.
    destruct (endpoints st1 !! provider) as [endpoint|] eqn:Hep;
      [|split; [exact I | apply changes_within_refl]].
    assert (Hal : allowed (Endpoint.provider endpoint)).
    { apply (Hc provider); [assumption|]. now rewrite <- He. }
    destruct (mode st1); [|split; [exact I | apply changes_within_refl]].
    destruct (isAddin h); cbn [fst snd];
      [split; [assumption | now apply changes_within_emit]|].
    destruct (setInterval h), (window_open h); cbn [fst snd];
      (split; [first [assumption | exact I]|]);
      first [ now apply changes_within_emit
            | eapply changes_within_trans; now apply changes_within_emit ]. }
  destruct Hopen as [H1 H2].
  split; [exact H1 | exact (changes_within_trans _ _ _ _ Hcache H2)].
Qed.

(** X7. With a registry that holds every endpoint under its own provider
    name, one call of [authenticate] and all the callbacks that follow
    leave the tokens of the other providers alone. *)
Theorem run_keeps_other_tokens (h : Host) (provider : string) (force : bool)
    (st : State) (cbs : list Callback) (q : string) :
  well_keyed (endpoints st) ->
  q <> provider ->
  let started := authenticate h provider force st in
  tokens (snd (run cbs (fst started) (snd started))) !! q = tokens st !! q.
Proof.
  intros Hwk Hq. cbv zeta.
  assert (Hc : closed_under_lookup (fun k => k = provider) (endpoints st)).
  { intros k endpoint -> Hep. now apply Hwk. }
  destruct (authenticate_within (fun k => k = provider) h provider force st eq_refl Hc)
    as [Hp Hch].
  destruct Hch as (He & Hm & Ht & _).
  destruct (run_within (fun k => k = provider) cbs
              (fst (authenticate h provider force st))
              (snd (authenticate h provider force st))) as (_ & _ & Ht' & _);
    [now rewrite He | assumption|].
  now rewrite Ht', Ht.
Qed.

(** X8. Whatever the store, the mode and the callbacks, a call of
    [authenticate] never changes the registry or the mode, never navigates
    the page ([location.replace] is not called, in [Redirect] mode
    either) and never sends a message to a parent. *)
Theorem run_stays_on_page (h : Host) (provider : string) (force : bool)
    (st : State) (cbs : list Callback) :
  let started := authenticate h provider force st in
  let r := run cbs (fst started) (snd started) in
  endpoints (snd r) = endpoints st /\
  mode (snd r) = mode st /\
  exists es, log (snd r) = (log st ++ es)%list /\ forallb stays_on_page es = true.
Proof.
  cbv zeta.
  assert (Hc : forall st', closed_under_lookup (fun _ => True) (endpoints st'))
    by (intros st' k endpoint _ _; exact I).
  destruct (authenticate_within (fun _ => True) h provider force st I (Hc st))
    as [Hp Hch].
  pose proof (run_within (fun _ => True) cbs
                (fst (authenticate h provider force st))
                (snd (authenticate h provider force st)) (Hc _) Hp) as Hrun.
  destruct (changes_within_trans _ _ _ _ Hch Hrun) as (He & Hm & _ & Hes).
  auto.
Qed.


(** ** The request of the code exchange *)

Lemma set_headers_In (headers : list (string * string)) (e : Event) :
  In e (Authenticator.set_headers headers) <->
  exists k v, e = XhrSetRequestHeader k v /\ reserved k = false /\ In (k, v) headers.
Proof.
  induction headers as [|[k0 v0] rest IH]; simpl.
  - split; [intros [] | intros (k & v & _ & _ & [])].
  - fold (reserved k0). destruct (reserved k0) eqn:Hr.
    + rewrite IH. split.
      * intros (k & v & He & Hk & Hin). exists k, v. auto.
      * intros (k & v & He & Hk & [Heq | Hin]); [congruence|]. exists k, v. auto.
    + simpl. rewrite IH. split.
      * intros [<- | (k & v & He & Hk & Hin)]; [exists k0, v0; auto|].
        exists k, v. auto.
      * intros (k & v & He & Hk & [Heq | Hin]).
        -- left. congruence.
        -- right. exists k, v. auto.
Qed.

(** X9. The request that [exchangeCodeForToken] sends: opened as a POST to
    the token URL first, sent last with the serialised payload, and in
    between exactly these headers are set: [Accept] and [Content-Type] as
    [application/json], and every header of the caller whose name is not,
    letter for letter, one of those two.  A caller's [Accept] is dropped;
    a caller's [accept] is passed on. *)
Theorem exchange_request (provider : string) (endpoint : Endpoint.t)
    (tokenUrl : string) (data : value) (headers : list (string * string))
    (st : State) :
  endpoints st !! provider = Some endpoint ->
  Endpoint.tokenUrl endpoint = Some tokenUrl ->
  exists sets,
    log (snd (exchangeCodeForToken provider data headers st)) =
      (log st ++ [XhrOpen "POST" tokenUrl] ++ sets ++
       [XhrSend (JSON_stringify data)])%list /\
    forall e, In e sets <->
      e = XhrSetRequestHeader "Accept" "application/json" \/
      e = XhrSetRequestHeader "Content-Type" "application/json" \/
      exists k v, e = XhrSetRequestHeader k v /\
                  k <> "Accept" /\ k <> "Content-Type" /\ In (k, v) headers.
Proof.
  intros Hep Hurl. unfold Authenticator.exchangeCodeForToken, endpoints_get.
  rewrite Hep, Hurl. simpl.
  exists ([XhrSetRequestHeader "Accept" "application/json";
           XhrSetRequestHeader "Content-Type" "application/json"]
          ++ Authenticator.set_headers headers)%list.
  split; [reflexivity|].
  intros e. simpl. rewrite set_headers_In.
  assert (Hres : forall k, reserved k = false <-> k <> "Accept" /\ k <> "Content-Type").
  { intros k. unfold reserved. rewrite orb_false_iff, !String.eqb_neq. reflexivity. }
  split.
  - intros [<- | [<- | (k & v & He & Hk & Hin)]]; auto.
    right. right. exists k, v. apply Hres in Hk. destruct Hk. auto.
  - intros [-> | [-> | (k & v & He & Hk1 & Hk2 & Hin)]]; auto.
    right. right. exists k, v. rewrite Hres. auto.
Qed.

(** ** The popup *)

(** X10. A popup that the browser refuses (a null window) does not reject
    the promise at once: [authenticate] returns a pending promise with the
    interval armed, and the first tick, whatever it would read, rejects
    with the [TypeError] of reading [document] of null and clears the
    interval. *)
Theorem popup_blocked_rejects_on_first_tick (h : Host) (provider : string)
    (endpoint : Endpoint.t) (force : bool) (st st1 : State) (t : Tick) (u : unit) :
  endpoints st !! provider = Some endpoint ->
  mode st = Dialog ->
  isAddin h = false ->
  window_open h = false ->
  setInterval h = Normal u ->
  is_nullish (tokens_get st provider) = true \/ force = true ->
  let started := authenticate h provider force st in
  fst started = Polling endpoint false /\
  interval_armed (log (snd started)) = true /\
  deliver (IntervalTick t) (fst started) st1 =
    (Rejected (IError (null_read "document")), emit [ClearInterval] st1).
Proof.
  intros Hep Hm Ha Hw Hs Hmiss. cbv zeta. rewrite authenticate_eq. cbv zeta.
  assert (Hcond : negb (is_nullish (tokens_get st provider)) &&
                  negb (force || has_expired (now h) (tokens_get st provider)) = false).
  { destruct Hmiss as [H | H]; rewrite H; simpl; [reflexivity | apply andb_false_r]. }
  rewrite Hcond.
  destruct (after_cache_check_frame new_Date (now h) provider st) as (He & Hm' & _).
  unfold Authenticator.open_surface, Authenticator._openInWindowPopup, endpoints_get.
  cbv zeta. rewrite He, Hep, Hm', Hm, Ha, Hs, Hw. simpl.
  repeat split.
  unfold interval_armed. rewrite !interval_after_app. reflexivity.
Qed.

Lemma starts_with_spec (p : string) : forall s,
  starts_with p s = true <-> exists post, s = (p ++ post)%string.
Proof.
  induction p as [|a p IH]; intros s; simpl.
  - split; [intros _; exists s; reflexivity | auto].
  - destruct s as [|b s].
    + split; [discriminate | intros [post H]; discriminate].
    + rewrite andb_true_iff, Ascii.eqb_eq, IH. split.
      * intros (-> & post & ->). exists post. reflexivity.
      * intros [post H]. injection H as -> ->. split; [reflexivity | eauto].
Qed.

Lemma includes_spec (needle : string) : forall hay,
  includes needle hay = true <->
  exists pre post, hay = (pre ++ needle ++ post)%string.
Proof.
  induction hay as [|c hay IH]; simpl.
  - rewrite orb_false_r, starts_with_spec. split.
    + intros [post H]. exists EmptyString, post. exact H.
    + intros (pre & post & H). destruct pre; [|discriminate]. exists post. exact H.
  - rewrite orb_true_iff, starts_with_spec, IH. split.
    + intros [[post H] | (pre & post & H)].
      * exists EmptyString, post. exact H.
      * exists (String c pre), post. simpl. now rewrite H.
    + intros (pre & post & H). destruct pre as [|c' pre]; simpl in H.
      * left. exists post. exact H.
      * right. injection H as -> ->. exists pre, post. reflexivity.
Qed.

Lemma exchange_not_polling (provider : string) (data : value)
    (headers : list (string * string)) (st : State) (ep : Endpoint.t) (w : bool) :
  fst (exchangeCodeForToken provider data headers st) <> Polling ep w.
Proof.
  unfold Authenticator.exchangeCodeForToken.
  destruct (endpoints_get st provider) as [endpoint|]; [|discriminate].
  destruct (Endpoint.tokenUrl endpoint); discriminate.
Qed.

(** X11. The interval callback takes the popup for arrived exactly when
    the URL it reads contains the redirect URL somewhere, not only at its
    start: then the interval is cleared and the popup closed, in that
    order, and the promise leaves the polling state for good; on any other
    URL nothing at all happens. *)
Theorem poll_reacts_to_redirect_anywhere (endpoint : Endpoint.t) (t : Tick)
    (URL : string) (st : State) :
  first t = Normal URL ->
  let arrived := exists pre post,
                   URL = (pre ++ Endpoint.redirectUrl endpoint ++ post)%string in
  let r := poll endpoint true t st in
  (arrived ->
   (exists es, log (snd r) = (log st ++ ClearInterval :: PopupClose :: es)%list) /\
   forall ep w, fst r <> Polling ep w) /\
  (~ arrived -> r = (Polling endpoint true, st)).
Proof.
  intros Hfirst. cbv zeta. unfold Authenticator.poll, Authenticator.document_URL.
  cbv zeta. rewrite Hfirst.
  destruct (includes (Endpoint.redirectUrl endpoint) URL) eqn:Hinc.
  - split; [|intros Hn; apply includes_spec in Hinc; contradiction].
    intros _.
    assert (Hhere : exists es, log (emit [ClearInterval; PopupClose] st) =
                               (log st ++ ClearInterval :: PopupClose :: es)%list)
      by (exists []; reflexivity).
    destruct (second t) as [URL'|exception]; [|split; [exact Hhere | discriminate]].
    destruct (is_nullish (getToken URL' (Endpoint.redirectUrl endpoint)));
      [split; [exact Hhere | discriminate]|].
    split.
    + destruct (classify_within (fun _ => True) endpoint
                  (getToken URL' (Endpoint.redirectUrl endpoint))
                  (fun e => Authenticator.poll_catch true Stalled e
                              (emit [ClearInterval; PopupClose] st))
                  (emit [ClearInterval; PopupClose] st) I) as (_ & _ & _ & _ & es & Hl & _).
      { intros k ep _ _. exact I. }
      { intros e. split; [exact I | apply changes_within_refl]. }
      exists es. rewrite Hl. simpl. now rewrite <- app_assoc.
    + intros ep w. unfold Authenticator.classify.
      destruct (js_in "code" _) as [[|]|e]; [apply exchange_not_polling| |discriminate].
      destruct (js_in "access_token" _) as [[|]|e]; discriminate.
  - split; [|reflexivity].
    intros Harr. apply includes_spec in Harr. congruence.
Qed.

(** ** What the callbacks write *)

Lemma exchange_keeps_store (provider : string) (data : value)
    (headers : list (string * string)) (st : State) :
  tokens (snd (exchangeCodeForToken provider data headers st)) = tokens st.
Proof.
  unfold Authenticator.exchangeCodeForToken.
  destruct (endpoints_get st provider) as [endpoint|]; [|reflexivity].
  destruct (Endpoint.tokenUrl endpoint); reflexivity.
Qed.

Lemma classify_rejection_keeps_store (endpoint : Endpoint.t) (result : value)
    (catch : value -> Promise * State) (st : State) (reason : value) :
  (forall e, tokens (snd (catch e)) = tokens st) ->
  fst (Authenticator.classify JSON_stringify endpoint result catch st) = Rejected reason ->
  tokens (snd (Authenticator.classify JSON_stringify endpoint result catch st)) = tokens st.
Proof.
  intros Hcatch. unfold Authenticator.classify.
  destruct (js_in "code" result) as [[|]|e]; [| |intros _; apply Hcatch].
  - intros _. apply exchange_keeps_store.
  - destruct (js_in "access_token" result) as [[|]|e];
      [discriminate | reflexivity | intros _; apply Hcatch].
Qed.

(** X12. A callback that leaves the promise rejected has written no token:
    the store is written only on the way to a resolution. *)
Theorem rejection_writes_no_token (cb : Callback) (p : Promise) (st : State)
    (reason : value) :
  fst (deliver cb p st) = Rejected reason ->
  tokens (snd (deliver cb p st)) = tokens st.
Proof.
  destruct p, cb; simpl; try reflexivity.
  - unfold Authenticator.poll, Authenticator.document_URL, Authenticator.poll_catch.
    cbv zeta. destruct popupWindow; simpl; [|reflexivity].
    destruct (first t) as [URL|exception]; [|reflexivity].
    destruct (includes (Endpoint.redirectUrl endpoint) URL); [|reflexivity].
    destruct (second t) as [URL'|exception]; [|reflexivity].
    destruct (is_nullish (getToken URL' (Endpoint.redirectUrl endpoint))); [reflexivity|].
    intros H. now apply classify_rejection_keeps_store in H.
  - unfold Authenticator.on_dialog. destruct dialog; reflexivity.
  - unfold Authenticator.on_message. cbv zeta.
    destruct message as [message|]; [|reflexivity].
    destruct (String.eqb message EmptyString); [reflexivity|].
    destruct (JSON_parse message) as [json|exception]; [|reflexivity].
    intros H. now apply classify_rejection_keeps_store in H.
  - unfold Authenticator.onload.
    destruct (status =? 200); [|reflexivity].
    destruct (JSON_parse responseText) as [json|e]; [|reflexivity].
    destruct (js_in "access_token" json) as [[|]|e]; [discriminate | reflexivity..].
Qed.

(** X13. [code] comes before [access_token]: a message of the dialog whose
    JSON carries a [code] is handed to [exchangeCodeForToken] after the
    dialog is closed, also when it carries an [access_token] as well, and
    the handler stores nothing. *)
Theorem message_with_code_is_exchanged (endpoint : Endpoint.t) (message : string)
    (fields : list (string * value)) (st : State) :
  message <> EmptyString ->
  JSON_parse message = Normal (VObj fields) ->
  is_Some (assoc "code" fields) ->
  let r := deliver (DialogMessageReceived (Some message)) (DialogListening endpoint) st in
  r = exchangeCodeForToken (Endpoint.provider endpoint) (VObj fields) []
        (emit [DialogClose] st) /\
  tokens (snd r) = tokens st.
Proof.
  intros Hne Hp Hcode. cbv zeta. simpl. unfold Authenticator.on_message. cbv zeta.
  apply String.eqb_neq in Hne. rewrite Hne, Hp.
  unfold Authenticator.classify. simpl.
  rewrite bool_decide_eq_true_2 by assumption.
  split; [reflexivity | now rewrite exchange_keeps_store].
Qed.

Lemma run_stalled (cbs : list Callback) (st : State) :
  run cbs Stalled st = (Stalled, st).
Proof. induction cbs as [|[] cbs IH]; simpl; auto. Qed.

(** X14. A dialog that the host cannot display ([result.value] undefined)
    leaves the promise of [authenticate] pending for good, for every call
    that gets as far as the dialog (no cached token, an expired one, or
    [force]): no handler gets registered, so whatever the host calls back
    with later, nothing settles it and nothing more is done. *)
Theorem dialog_not_displayed_never_settles (h : Host) (provider : string)
    (endpoint : Endpoint.t) (force : bool) (st : State) (cbs : list Callback) :
  endpoints st !! provider = Some endpoint ->
  mode st = Dialog ->
  isAddin h = true ->
  is_nullish (tokens_get st provider) = true \/ force = true \/
  has_expired (now h) (tokens_get st provider) = true ->
  let started := authenticate h provider force st in
  let r := run (DialogCallback false :: cbs) (fst started) (snd started) in
  fst started = DialogOpening endpoint /\
  is_settled (fst r) = false /\ snd r = snd started.
Proof.
  intros Hep Hm Ha Hmiss. cbv zeta. rewrite authenticate_eq. cbv zeta.
  assert (Hcond : negb (is_nullish (tokens_get st provider)) &&
                  negb (force || has_expired (now h) (tokens_get st provider)) = false).
  { destruct Hmiss as [H | [H | H]]; rewrite H; simpl;
      rewrite ?orb_true_r, ?andb_false_r; reflexivity. }
  rewrite Hcond.
  destruct (after_cache_check_frame new_Date (now h) provider st) as (He & Hm' & _).
  unfold Authenticator.open_surface, Authenticator._openInDialog, endpoints_get.
  cbv zeta. rewrite He, Hep, Hm', Hm, Ha. simpl.
  now rewrite run_stalled.
Qed.


(** ** Surface selection and results *)

(** X18. For a registered provider in [Dialog] mode whose cache check does
    not answer, [authenticate] asks for exactly one surface at the login
    URL of the endpoint: the host dialog in an add-in, otherwise a popup
    named by what the host's [toUpperCase] makes of the provider name,
    with the interval armed; the
    only other thing logged is the warning about an expired token, and the
    promise is pending. *)
Theorem authenticate_selects_surface (h : Host) (provider : string)
    (endpoint : Endpoint.t) (force : bool) (st : State) (u : unit) :
  endpoints st !! provider = Some endpoint ->
  mode st = Dialog ->
  setInterval h = Normal u ->
  is_nullish (tokens_get st provider) = true \/ force = true ->
  let r := authenticate h provider force st in
  fst r = (if isAddin h then DialogOpening endpoint
           else Polling endpoint (window_open h)) /\
  exists warnings,
    forallb is_warning warnings = true /\
    log (snd r) = (log st ++ warnings ++ surface_request getLoginUrl h endpoint)%list.
Proof.
  intros Hep Hm Hs Hmiss. cbv zeta. rewrite authenticate_eq. cbv zeta.
  assert (Hcond : negb (is_nullish (tokens_get st provider)) &&
                  negb (force || has_expired (now h) (tokens_get st provider)) = false).
  { destruct Hmiss as [H | H]; rewrite H; simpl; [reflexivity | apply andb_false_r]. }
  rewrite Hcond.
  destruct (after_cache_check_frame new_Date (now h) provider st)
    as (He & Hm' & es & Hlog & Hw & _).
  unfold Authenticator.open_surface, Authenticator._openInDialog,
    Authenticator._openInWindowPopup, endpoints_get, surface_request.
  cbv zeta. rewrite He, Hep, Hm', Hm, Hs.
  destruct (isAddin h); simpl; (split; [reflexivity|]); exists es;
    (split; [assumption|]); rewrite Hlog, <- ?app_assoc; reflexivity.
Qed.

Lemma exchange_resolves_with_data (provider : string) (data : value)
    (headers : list (string * string)) (st : State) (v : value) :
  fst (exchangeCodeForToken provider data headers st) = Resolved v -> v = data.
Proof.
  unfold Authenticator.exchangeCodeForToken.
  destruct (endpoints_get st provider) as [endpoint|]; [|discriminate].
  destruct (Endpoint.tokenUrl endpoint); [discriminate|].
  simpl. congruence.
Qed.

Lemma classify_resolution (endpoint : Endpoint.t) (result : value)
    (catch : value -> Promise * State) (st : State) (v : value) :
  (forall e w, fst (catch e) <> Resolved w) ->
  fst (Authenticator.classify JSON_stringify endpoint result catch st) = Resolved v ->
  tokens (snd (Authenticator.classify JSON_stringify endpoint result catch st)) =
    <[Endpoint.provider endpoint := v]> (tokens st) \/
  js_in "code" v = Normal true /\
  tokens (snd (Authenticator.classify JSON_stringify endpoint result catch st)) = tokens st.
Proof.
  intros Hcatch. unfold Authenticator.classify.
  destruct (js_in "code" result) as [[|]|e] eqn:Hcode.
  - intros H. right. apply exchange_resolves_with_data in H as ->.
    split; [assumption | apply exchange_keeps_store].
  - destruct (js_in "access_token" result) as [[|]|e].
    + simpl. intros [= ->]. now left.
    + discriminate.
    + intros H. now apply Hcatch in H.
  - intros H. now apply Hcatch in H.
Qed.

(** X19. What a resolution leaves in the store: when a callback resolves a
    pending promise with a value, either that value is now the token of
    the endpoint's provider, or it is a payload with a [code] that was
    handed back as it came (the endpoint has no token URL) and the store
    is as it was. *)
Theorem resolution_is_stored_or_a_code (cb : Callback) (p : Promise)
    (endpoint : Endpoint.t) (st : State) (v : value) :
  endpoint_of p = Some endpoint ->
  fst (deliver cb p st) = Resolved v ->
  tokens (snd (deliver cb p st)) = <[Endpoint.provider endpoint := v]> (tokens st) \/
  js_in "code" v = Normal true /\ tokens (snd (deliver cb p st)) = tokens st.
Proof.
  intros Hp.
  destruct p, cb; simpl in *; try discriminate; injection Hp as ->.
  - unfold Authenticator.poll, Authenticator.document_URL, Authenticator.poll_catch.
    cbv zeta. destruct popupWindow; simpl; [|discriminate].
    destruct (first t) as [URL|exception]; [|discriminate].
    destruct (includes (Endpoint.redirectUrl endpoint) URL); [|discriminate].
    destruct (second t) as [URL'|exception]; [|discriminate].
    destruct (is_nullish (getToken URL' (Endpoint.redirectUrl endpoint))); [discriminate|].
    intros H. apply classify_resolution in H; [exact H | discriminate].
  - unfold Authenticator.on_dialog. destruct dialog; discriminate.
  - unfold Authenticator.on_message. cbv zeta.
    destruct message as [message|]; [|discriminate].
    destruct (String.eqb message EmptyString); [discriminate|].
    destruct (JSON_parse message) as [json|exception]; [|discriminate].
    intros H. apply classify_resolution in H; [exact H | discriminate].
  - unfold Authenticator.onload.
    destruct (status =? 200); [|discriminate].
    destruct (JSON_parse responseText) as [json|e]; [|discriminate].
    destruct (js_in "access_token" json) as [[|]|e]; try discriminate.
    simpl. intros [= ->]. now left.
Qed.

(** X20. Every message of the dialog closes the dialog before anything
    else, and takes the promise out of the listening state: it is then
    settled or waits for the token endpoint.  A null or empty message, and
    one that is not JSON, reject without touching the store. *)
Theorem dialog_message_outcomes (endpoint : Endpoint.t) (message : option string)
    (st : State) :
  let r := deliver (DialogMessageReceived message) (DialogListening endpoint) st in
  (exists es, log (snd r) = (log st ++ DialogClose :: es)%list) /\
  (is_settled (fst r) = true \/ exists endpoint', fst r = AwaitingResponse endpoint') /\
  (message = None \/ message = Some EmptyString ->
   r = (Rejected no_token_parsed, emit [DialogClose] st)) /\
  (forall text e, message = Some text -> text <> EmptyString ->
                  JSON_parse text = Throw e ->
                  r = (Rejected (IError e), emit [DialogClose] st)).
Proof.
  cbv zeta. simpl. unfold Authenticator.on_message. cbv zeta.
  assert (Hhere : exists es, log (emit [DialogClose] st) =
                             (log st ++ DialogClose :: es)%list)
    by (exists []; reflexivity).
  split; [|split; [|split]].
  - destruct message as [text|]; [|exact Hhere].
    destruct (String.eqb text EmptyString); [exact Hhere|].
    destruct (JSON_parse text) as [json|e]; [|exact Hhere].
    destruct (classify_within (fun _ => True) endpoint json
                (fun exception => (Rejected (IError exception), emit [DialogClose] st))
                (emit [DialogClose] st) I) as (_ & _ & _ & _ & es & Hl & _).
    { intros k ep _ _. exact I. }
    { intros e. split; [exact I | apply changes_within_refl]. }
    exists es. rewrite Hl. simpl. now rewrite <- app_assoc.
  - destruct message as [text|]; [|now left].
    destruct (String.eqb text EmptyString); [now left|].
    destruct (JSON_parse text) as [json|e]; [|now left].
    unfold Authenticator.classify, Authenticator.exchangeCodeForToken.
    destruct (js_in "code" json) as [[|]|e]; [| |now left].
    + destruct (endpoints_get _ _) as [endpoint'|]; [|now left].
      destruct (Endpoint.tokenUrl endpoint'); [right; eauto | now left].
    + destruct (js_in "access_token" json) as [[|]|e]; now left.
  - intros [-> | ->]; reflexivity.
  - intros text e -> Hne He. apply String.eqb_neq in Hne. now rewrite Hne, He.
Qed.

End MoreProperties.

(** ** The static context flag *)

(** X15. [isAddin] is computed once: after a read that returned a flag,
    every later read returns the same flag without looking at the window
    again, whatever has become of [Office] in the meantime. *)
Theorem isAddin_is_memoised (w w' : OfficeGlobal) (_isAddin : option bool)
    (flag : bool) (after : option bool) :
  get_isAddin w _isAddin = (Normal flag, after) ->
  get_isAddin w' after = (Normal flag, after).
Proof.
  unfold get_isAddin. destruct _isAddin as [b|].
  - intros [= <- <-]. reflexivity.
  - destruct (has_Office w); [|intros [= <- <-]; reflexivity].
    destruct (ui_is_null w) as [null|e]; [|discriminate].
    intros [= <- <-]. reflexivity.
Qed.


(** ** Runs on the sample hosts *)

Lemma sample_registry_well_keyed : well_keyed Sample.registry.
Proof.
  intros k endpoint. unfold Sample.registry.
  rewrite !lookup_insert. repeat case_decide; subst;
    rewrite ?lookup_empty; intros [= <-]; reflexivity.
Qed.

Lemma authenticate_force_never_resolves_witness :
  fst (Sample.authenticate (Sample.browser 1000) "Contoso" true
         (Sample.returning Sample.cached)) <> Resolved Sample.cached.
Proof.
  apply (authenticate_force_never_resolves Sample.getLoginUrl Sample.new_Date).
Defined.

Lemma authenticate_invalid_date_resolves_witness :
  fst (Sample.authenticate (Sample.browser 99999999) "Contoso" false
         (Sample.returning DialogSample.undated)) =
    Resolved (VObj [("access_token", VStr "tok123"); ("expires_at", VDate None)]).
Proof.
  exact (proj1 (authenticate_invalid_date_resolves Sample.getLoginUrl Sample.new_Date
                  (Sample.browser 99999999) "Contoso" DialogSample.undated
                  (Sample.returning DialogSample.undated) eq_refl eq_refl eq_refl)).
Defined.

Lemma authenticate_resolves_earlier_witness :
  fst (Sample.authenticate (Sample.browser 1000) "Contoso" false
         (Sample.returning Sample.cached)) =
    Resolved (VObj [("access_token", VStr "tok123"); ("expires_at", VDate (Some 5000))]).
Proof.
  apply (authenticate_resolves_earlier Sample.getLoginUrl Sample.new_Date
           (Sample.browser 1000) (Sample.browser 4000)).
  - simpl. lia.
  - reflexivity.
Defined.

Lemma authenticate_cache_hit_repeats_witness :
  let r := Sample.authenticate (Sample.browser 1000) "Contoso" false
             (Sample.returning Sample.cached) in
  Sample.authenticate (Sample.browser 4000) "Contoso" false (snd r) = (fst r, snd r).
Proof.
  apply (authenticate_cache_hit_repeats Sample.getLoginUrl Sample.new_Date
           (Sample.browser 1000) (Sample.browser 4000) "Contoso" Sample.cached);
    reflexivity.
Defined.

Lemma exchange_then_authenticate_witness :
  let r := Sample.deliver (XhrLoad 200 Sample.token_body)
             (AwaitingResponse Sample.contoso) (Sample.fresh Dialog) in
  Sample.authenticate (Sample.addin 0) "Contoso" false (snd r) = r.
Proof.
  cbv zeta.
  destruct (exchange_then_authenticate Sample.getLoginUrl Sample.getToken
              Sample.JSON_parse Sample.JSON_stringify Sample.new_Date
              (Sample.addin 0) Sample.contoso Sample.token_body
              [("access_token", VStr "tok123"); ("expires_in", VNum 3600)]
              (Sample.fresh Dialog) eq_refl
              (ex_intro _ (VStr "tok123") eq_refl) eq_refl) as (_ & _ & _ & Hsame).
  exact (Hsame eq_refl).
Defined.

Lemma run_keeps_other_tokens_witness :
  let started := Sample.authenticate (Sample.browser 0) "Contoso" false
                   (Sample.orphan Sample.cached) in
  let url := "https://app.contoso.com/auth?code=abc" in
  tokens (snd (Sample.run [IntervalTick (mkTick false (Normal url) (Normal url));
                           XhrLoad 200 Sample.token_body]
                 (fst started) (snd started))) !! "Woodgrove" =
  Some Sample.cached.
Proof.
  cbv zeta.
  assert (Hne : "Woodgrove" <> "Contoso") by discriminate.
  exact (run_keeps_other_tokens Sample.getLoginUrl Sample.getToken Sample.JSON_parse
           Sample.JSON_stringify Sample.new_Date (Sample.browser 0) "Contoso" false
           (Sample.orphan Sample.cached)
           [IntervalTick (mkTick false (Normal "https://app.contoso.com/auth?code=abc")
                            (Normal "https://app.contoso.com/auth?code=abc"));
            XhrLoad 200 Sample.token_body]
           "Woodgrove" sample_registry_well_keyed Hne).
Defined.

Lemma exchange_request_witness :
  exists sets,
    log (snd (Sample.exchangeCodeForToken "Contoso" (VObj [("code", VStr "abc")])
                [("Accept", "text/plain"); ("accept", "text/plain")]
                (Sample.fresh Dialog))) =
      ([XhrOpen "POST" "https://app.contoso.com/token"] ++ sets ++
       [XhrSend (Sample.JSON_stringify (VObj [("code", VStr "abc")]))])%list /\
    ~ In (XhrSetRequestHeader "Accept" "text/plain") sets /\
    In (XhrSetRequestHeader "accept" "text/plain") sets.
Proof.
  destruct (exchange_request Sample.JSON_stringify "Contoso" Sample.contoso
              "https://app.contoso.com/token" (VObj [("code", VStr "abc")])
              [("Accept", "text/plain"); ("accept", "text/plain")]
              (Sample.fresh Dialog) eq_refl eq_refl) as (sets & Hlog & Hsets).
  exists sets. split; [exact Hlog|]. split.
  - intros Hin. apply Hsets in Hin as [H | [H | (k & v & H & Hk & _)]];
      try discriminate. injection H as <- <-. now apply Hk.
  - apply Hsets. right. right. exists "accept", "text/plain".
    repeat split; try discriminate. right. now left.
Defined.

Lemma popup_blocked_rejects_on_first_tick_witness :
  let started := Sample.authenticate (DialogSample.blocking 0) "Contoso" false
                   (Sample.fresh Dialog) in
  fst started = Polling Sample.contoso false /\
  interval_armed (log (snd started)) = true /\
  Sample.deliver
    (IntervalTick (mkTick false (Normal "about:blank") (Normal "about:blank")))
    (fst started) (snd started) =
    (Rejected (IError (null_read "document")), emit [ClearInterval] (snd started)).
Proof.
  apply (popup_blocked_rejects_on_first_tick Sample.getLoginUrl Sample.getToken
           Sample.JSON_parse Sample.JSON_stringify Sample.new_Date
           (DialogSample.blocking 0) "Contoso" Sample.contoso false
           (Sample.fresh Dialog) _ _ tt); try reflexivity.
  left. reflexivity.
Defined.

Lemma poll_reacts_to_redirect_anywhere_witness :
  let url := "https://login.contoso.com/authorize?redirect_uri=https://app.contoso.com/auth" in
  fst (Sample.poll Sample.contoso true (mkTick false (Normal url) (Normal url))
         (Sample.fresh Dialog)) <> Polling Sample.contoso true.
Proof.
  cbv zeta.
  destruct (poll_reacts_to_redirect_anywhere Sample.getToken Sample.JSON_stringify
              Sample.contoso
              (mkTick false
                 (Normal "https://login.contoso.com/authorize?redirect_uri=https://app.contoso.com/auth")
                 (Normal "https://login.contoso.com/authorize?redirect_uri=https://app.contoso.com/auth"))
              "https://login.contoso.com/authorize?redirect_uri=https://app.contoso.com/auth"
              (Sample.fresh Dialog) eq_refl) as [Harrived _].
  apply Harrived.
  exists "https://login.contoso.com/authorize?redirect_uri=", EmptyString.
  reflexivity.
Defined.

Lemma rejection_writes_no_token_witness :
  tokens (snd (Sample.deliver (XhrLoad 401 Sample.error_body)
                 (AwaitingResponse Sample.contoso) (Sample.fresh Dialog))) =
  tokens (Sample.fresh Dialog).
Proof.
  apply (rejection_writes_no_token Sample.getToken Sample.JSON_parse
           Sample.JSON_stringify _ _ _
           (IError (VStr ("Request failed. " ++ Sample.error_body)))).
  reflexivity.
Defined.

Lemma message_with_code_is_exchanged_witness :
  let r := DialogSample.deliver (DialogMessageReceived (Some DialogSample.both_body))
             (DialogListening Sample.contoso) (Sample.fresh Dialog) in
  fst r = AwaitingResponse Sample.contoso /\
  tokens (snd r) = tokens (Sample.fresh Dialog).
Proof.
  cbv zeta.
  destruct (message_with_code_is_exchanged Sample.getToken DialogSample.JSON_parse
              Sample.JSON_stringify Sample.contoso DialogSample.both_body
              [("access_token", VStr "tok123"); ("code", VStr "abc")]
              (Sample.fresh Dialog)) as [Hr Ht].
  - discriminate.
  - reflexivity.
  - exists (VStr "abc"). reflexivity.
  - split; [|exact Ht].
    change (fst (DialogSample.deliver (DialogMessageReceived (Some DialogSample.both_body))
                   (DialogListening Sample.contoso) (Sample.fresh Dialog)) =
            AwaitingResponse Sample.contoso).
    unfold DialogSample.deliver. rewrite Hr. reflexivity.
Defined.

Lemma dialog_not_displayed_never_settles_witness :
  let started := Sample.authenticate (Sample.addin 0) "Contoso" false
                   (Sample.fresh Dialog) in
  is_settled (fst (Sample.run [DialogCallback false; DialogMessageReceived None;
                               XhrLoad 200 Sample.token_body]
                     (fst started) (snd started))) = false.
Proof.
  exact (proj1 (proj2
           (dialog_not_displayed_never_settles Sample.getLoginUrl Sample.getToken
              Sample.JSON_parse Sample.JSON_stringify Sample.new_Date
              (Sample.addin 0) "Contoso" Sample.contoso false (Sample.fresh Dialog)
              [DialogMessageReceived None; XhrLoad 200 Sample.token_body]
              eq_refl eq_refl eq_refl (or_introl eq_refl)))).
Defined.

Lemma isAddin_is_memoised_witness :
  get_isAddin (mkOfficeGlobal false (Throw VNull))
    (snd (get_isAddin (mkOfficeGlobal true (Normal false)) None)) =
  (Normal true, Some true).
Proof.
  apply (isAddin_is_memoised (mkOfficeGlobal true (Normal false)) _ None).
  reflexivity.
Defined.

Lemma authenticate_selects_surface_witness :
  let r := Sample.authenticate (Sample.browser 9000) "Contoso" false
             (Sample.returning Sample.cached) in
  fst r = Polling Sample.contoso true /\
  exists warnings,
    forallb is_warning warnings = true /\
    log (snd r) = (warnings ++ surface_request Sample.getLoginUrl (Sample.browser 9000)
                                Sample.contoso)%list.
Proof.
  apply (authenticate_selects_surface Sample.getLoginUrl Sample.new_Date
           (Sample.browser 9000) "Contoso" Sample.contoso true
           (Sample.returning Sample.cached) tt); try reflexivity.
  right. reflexivity.
Defined.

Lemma resolution_is_stored_or_a_code_witness :
  let r := Sample.deliver (XhrLoad 200 Sample.token_body)
             (AwaitingResponse Sample.contoso) (Sample.fresh Dialog) in
  tokens (snd r) =
    <["Contoso" := VObj [("access_token", VStr "tok123"); ("expires_in", VNum 3600)] ]>
      (tokens (Sample.fresh Dialog)) \/
  js_in "code" (VObj [("access_token", VStr "tok123"); ("expires_in", VNum 3600)]) =
    Normal true /\ tokens (snd r) = tokens (Sample.fresh Dialog).
Proof.
  apply (resolution_is_stored_or_a_code Sample.getToken Sample.JSON_parse
           Sample.JSON_stringify (XhrLoad 200 Sample.token_body)
           (AwaitingResponse Sample.contoso) Sample.contoso); reflexivity.
Defined.

Lemma dialog_message_outcomes_witness :
  Sample.deliver (DialogMessageReceived (Some "not json"))
    (DialogListening Sample.contoso) (Sample.fresh Dialog) =
  (Rejected (IError (VError SyntaxError "Unexpected token")),
   emit [DialogClose] (Sample.fresh Dialog)).
Proof.
  destruct (dialog_message_outcomes Sample.getToken Sample.JSON_parse
              Sample.JSON_stringify Sample.contoso (Some "not json")
              (Sample.fresh Dialog)) as (_ & _ & _ & Hbad).
  apply (Hbad "not json"); [reflexivity | discriminate | reflexivity].
Defined.
